(** * whoami.sh: the terminal's command interpreter, virtual filesystem
      adapter, autocomplete engine and input controller

    A shallow embedding of [js/terminal-logic.js], [js/terminal-events.js]
    and [js/theme-manager.js].

    - State.  The module-level variables of the three files, the children of
      the terminal container, the value of the hidden input field, the
      document's theme attribute and the saved theme are the fields of one
      [State] record that every function threads explicitly.
    - Environment.  The remote content provider ([fetch] of the contents URL
      of a path followed by [response.json()]) and the browser's [atob] are
      parameters of the functions that use them; [Base64.atob] is the
      decoder that browsers implement.
    - Exceptions.  A call of an array method on a value that is not an array
      raises a [TypeError]; functions in which this can happen return a
      [Completion].
    - Objects.  [themes] is an object literal: a lookup [themes[key]] that
      finds no own property continues on [Object.prototype].
    - Events.  The listeners are functions from [State] to [State], and
      [step] delivers one event.  A suggest request that reaches
      [await fetch(...)] stays in [pending] until its [Response] event; a
      request that needs no network settles before the next event.  A
      submitted command is run to completion.  A prompt carries an
      identifier, so that a listener or a suspended request keeps referring
      to the [#user-input] span it looked up, also after that prompt has left
      the document.
    - Strings.  JavaScript strings are modelled by [string]: sequences of
      bytes, on which [trim], [split], [startsWith], [lastIndexOf],
      [substring] and [toLowerCase] act as they do on ASCII text.  The path
      separator, the space and the letters of the command names are ASCII,
      so the search for them is the same on the UTF-8 bytes of any text;
      [trim] and [toLowerCase] are those of JavaScript on the texts that
      [asciiText] accepts, and the properties that depend on what they do to
      a typed line are stated for such lines.

    The definitions come first, the properties after them. *)

From Stdlib Require Import ZArith Lia Ascii String.
From stdpp Require Import base option list strings gmap.

Local Open Scope Z_scope.

(** ** JavaScript string primitives *)

Module JS.

(** White space removed by [String.prototype.trim] (ASCII part). *)
Definition isWhiteSpace (c : ascii) : bool := Ascii.is_space c.

Fixpoint trimStart (s : string) : string :=
  match s with
  | EmptyString => EmptyString
  | String a s' => if isWhiteSpace a then trimStart s' else s
  end.

Fixpoint trimEnd (s : string) : string :=
  match s with
  | EmptyString => EmptyString
  | String a s' =>
      match trimEnd s' with
      | EmptyString => if isWhiteSpace a then EmptyString else String a EmptyString
      | r => String a r
      end
  end.

Definition trim (s : string) : string := trimEnd (trimStart s).

(** [s.split(sep)] for a one-character separator: never the empty list. *)
Fixpoint split (sep : ascii) (s : string) : list string :=
  match s with
  | EmptyString => [EmptyString]
  | String a s' =>
      if Ascii.eqb a sep then EmptyString :: split sep s'
      else match split sep s' with
           | h :: t => String a h :: t
           | [] => [String a EmptyString]
           end
  end.

(** [parts.join(sep)]. *)
Fixpoint join (sep : string) (l : list string) : string :=
  match l with
  | [] => EmptyString
  | [x] => x
  | x :: rest => x +:+ sep +:+ join sep rest
  end.

Definition lowerChar (c : ascii) : ascii :=
  let n := N_of_ascii c in
  if ((65 <=? n) && (n <=? 90))%N then ascii_of_N (n + 32) else c.

Fixpoint toLowerCase (s : string) : string :=
  match s with
  | EmptyString => EmptyString
  | String a s' => String (lowerChar a) (toLowerCase s')
  end.

(** [s.startsWith(p)]. *)
Definition startsWith (s p : string) : bool := String.prefix p s.

(** [s.lastIndexOf(c)]: the index of the last [c], or -1. *)
Fixpoint lastIndexOf (c : ascii) (s : string) : Z :=
  match s with
  | EmptyString => -1
  | String a s' =>
      let r := lastIndexOf c s' in
      if 0 <=? r then r + 1 else if Ascii.eqb a c then 0 else -1
  end.

Definition clamp (len i : Z) : Z := Z.max 0 (Z.min i len).

(** [s.substring(a, b)]: both ends clamped to [0, length], swapped when
    out of order. *)
Definition substring (s : string) (a b : Z) : string :=
  let len := Z.of_nat (String.length s) in
  let a' := clamp len a in
  let b' := clamp len b in
  let lo := Z.min a' b' in
  let hi := Z.max a' b' in
  String.substring (Z.to_nat lo) (Z.to_nat (hi - lo)) s.

(** [s.substring(a)]. *)
Definition substringFrom (s : string) (a : Z) : string :=
  substring s a (Z.of_nat (String.length s)).

(** [x || d] on strings: the empty string is falsy. *)
Definition orElse (x d : string) : string :=
  if String.eqb x EmptyString then d else x.

(** Truthiness of a possibly undefined string. *)
Definition truthy (x : option string) : option string :=
  match x with
  | Some s => if String.eqb s EmptyString then None else Some s
  | None => None
  end.

End JS.

(** ** [atob]: forgiving base64 decoding, as browsers implement it *)

Module Base64.

Definition sextet (c : ascii) : option N :=
  let n := N_of_ascii c in
  if ((65 <=? n) && (n <=? 90))%N then Some (n - 65)%N
  else if ((97 <=? n) && (n <=? 122))%N then Some (n - 71)%N
  else if ((48 <=? n) && (n <=? 57))%N then Some (n + 4)%N
  else if (n =? 43)%N then Some 62%N
  else if (n =? 47)%N then Some 63%N
  else None.

Definition isAsciiWhitespace (c : ascii) : bool :=
  let n := N_of_ascii c in
  ((n =? 9) || (n =? 10) || (n =? 12) || (n =? 13) || (n =? 32))%N.

Definition stripPadding (l : list ascii) : list ascii :=
  if (Nat.eqb (length l mod 4) 0)%nat then
    match reverse l with
    | "="%char :: "="%char :: r => reverse r
    | "="%char :: r => reverse r
    | _ => l
    end
  else l.

Fixpoint sextets (l : list ascii) : option (list N) :=
  match l with
  | [] => Some []
  | c :: r =>
      match sextet c, sextets r with
      | Some v, Some vs => Some (v :: vs)
      | _, _ => None
      end
  end.

Fixpoint bytes (l : list N) : list N :=
  match l with
  | a :: b :: c :: d :: r =>
      let n := (a * 262144 + b * 4096 + c * 64 + d)%N in
      (n / 65536)%N :: ((n / 256) mod 256)%N :: (n mod 256)%N :: bytes r
  | [a; b; c] =>
      let n := ((a * 4096 + b * 64 + c) / 4)%N in
      [(n / 256)%N; (n mod 256)%N]
  | [a; b] => [((a * 64 + b) / 16)%N]
  | _ => []
  end.

Definition atob (s : string) : option string :=
  let l := stripPadding (filter (fun c => isAsciiWhitespace c = false)
                                (list_ascii_of_string s)) in
  if (Nat.eqb (length l mod 4) 1)%nat then None
  else match sextets l with
       | Some vs => Some (string_of_list_ascii (map ascii_of_N (bytes vs)))
       | None => None
       end.

End Base64.

(** ** Data model *)

(** An entry of a directory listing of the remote content provider. *)
Record Item := { item_name : string; item_type : string }.

(** What [response.json()] yields: an array of entries for a directory, an
    object for anything else.  Of the object the code reads [type] and
    [content]; either may be absent. *)
Inductive Json :=
| JArray (items : list Item)
| JObject (type : option string) (content : option string).

(** Children of the terminal container.  Lines built with [textContent] carry
    their text; lines built from an HTML template carry the values that the
    template interpolates. *)
Inductive Node :=
| Line (text : string)
| ErrorLine (text : string)
| DirLine (name : string)
| CatUsage
| CatUsageTip
| FileContent (text : string)
| CatNotFound (filename : string)
| AvailableFiles (names : list string)
| Prompt (id : nat) (dirDisplay : string) (userInput : string)
| CommandEcho (dirDisplay : string) (command : string)
| Br
| HelpLine (cmd desc : string)
| HelpTips
| HistoryLine (n : Z) (cmd : string)
| ThemeTitle (name : string)
| ThemeLine (key : string) (active : bool) (description : string)
| ThemeUsage
| ThemeChanged (name description : string)
| ThemeNotFound (themeArg : string)
| WelcomeMessage
| AboutBio
| AboutMeTyped
| EducationBio
| CompletionSuggestions (suggestions : list string)
| CompletionIndicator (index : Z) (suggestions : list string)
| NoCompletions.

(** A suggest request suspended on the network: what its continuation has
    captured. *)
Inductive CompletionKind := FileCompletion | DirectoryCompletion.

Record Request := {
  rq_input : string;
  rq_span : option nat;
  rq_kind : CompletionKind;
  rq_partial : string;
  rq_path : string
}.

Record State := {
  (* terminal-logic.js *)
  currentDirectory : string;
  fileSystemCache : gmap string Json;
  (* theme-manager.js, the document element and localStorage *)
  currentTheme : string;
  dataTheme : option string;
  savedTheme : option string;
  (* terminal-events.js *)
  commandHistory : list string;
  historyIndex : Z;
  autocompleteSuggestions : list string;
  autocompleteIndex : Z;
  autocompleteBaseInput : string;
  (* the page: the terminal's children, how many prompts were ever created,
     the hidden input's value, the windows scheduled to open, and the
     suggest requests awaiting the network *)
  terminal : list Node;
  promptCount : nat;
  hiddenInput : string;
  opened : list string;
  pending : list Request
}.

Definition set_currentDirectory (v : string) (st : State) : State :=
  {| currentDirectory := v; fileSystemCache := fileSystemCache st;
     currentTheme := currentTheme st; dataTheme := dataTheme st;
     savedTheme := savedTheme st; commandHistory := commandHistory st;
     historyIndex := historyIndex st;
     autocompleteSuggestions := autocompleteSuggestions st;
     autocompleteIndex := autocompleteIndex st;
     autocompleteBaseInput := autocompleteBaseInput st;
     terminal := terminal st; promptCount := promptCount st;
     hiddenInput := hiddenInput st; opened := opened st;
     pending := pending st |}.

Definition set_fileSystemCache (v : gmap string Json) (st : State) : State :=
  {| currentDirectory := currentDirectory st; fileSystemCache := v;
     currentTheme := currentTheme st; dataTheme := dataTheme st;
     savedTheme := savedTheme st; commandHistory := commandHistory st;
     historyIndex := historyIndex st;
     autocompleteSuggestions := autocompleteSuggestions st;
     autocompleteIndex := autocompleteIndex st;
     autocompleteBaseInput := autocompleteBaseInput st;
     terminal := terminal st; promptCount := promptCount st;
     hiddenInput := hiddenInput st; opened := opened st;
     pending := pending st |}.

Definition set_theme (cur : string) (attr saved : option string) (st : State) : State :=
  {| currentDirectory := currentDirectory st;
     fileSystemCache := fileSystemCache st; currentTheme := cur;
     dataTheme := attr; savedTheme := saved;
     commandHistory := commandHistory st; historyIndex := historyIndex st;
     autocompleteSuggestions := autocompleteSuggestions st;
     autocompleteIndex := autocompleteIndex st;
     autocompleteBaseInput := autocompleteBaseInput st;
     terminal := terminal st; promptCount := promptCount st;
     hiddenInput := hiddenInput st; opened := opened st;
     pending := pending st |}.

Definition set_history (h : list string) (i : Z) (st : State) : State :=
  {| currentDirectory := currentDirectory st;
     fileSystemCache := fileSystemCache st; currentTheme := currentTheme st;
     dataTheme := dataTheme st; savedTheme := savedTheme st;
     commandHistory := h; historyIndex := i;
     autocompleteSuggestions := autocompleteSuggestions st;
     autocompleteIndex := autocompleteIndex st;
     autocompleteBaseInput := autocompleteBaseInput st;
     terminal := terminal st; promptCount := promptCount st;
     hiddenInput := hiddenInput st; opened := opened st;
     pending := pending st |}.

Definition set_historyIndex (i : Z) (st : State) : State :=
  {| currentDirectory := currentDirectory st;
     fileSystemCache := fileSystemCache st; currentTheme := currentTheme st;
     dataTheme := dataTheme st; savedTheme := savedTheme st;
     commandHistory := commandHistory st; historyIndex := i;
     autocompleteSuggestions := autocompleteSuggestions st;
     autocompleteIndex := autocompleteIndex st;
     autocompleteBaseInput := autocompleteBaseInput st;
     terminal := terminal st; promptCount := promptCount st;
     hiddenInput := hiddenInput st; opened := opened st;
     pending := pending st |}.

Definition set_autocomplete (l : list string) (i : Z) (b : string) (st : State) : State :=
  {| currentDirectory := currentDirectory st;
     fileSystemCache := fileSystemCache st; currentTheme := currentTheme st;
     dataTheme := dataTheme st; savedTheme := savedTheme st;
     commandHistory := commandHistory st; historyIndex := historyIndex st;
     autocompleteSuggestions := l; autocompleteIndex := i;
     autocompleteBaseInput := b; terminal := terminal st;
     promptCount := promptCount st; hiddenInput := hiddenInput st;
     opened := opened st; pending := pending st |}.

Definition set_autocompleteIndex (i : Z) (st : State) : State :=
  {| currentDirectory := currentDirectory st;
     fileSystemCache := fileSystemCache st; currentTheme := currentTheme st;
     dataTheme := dataTheme st; savedTheme := savedTheme st;
     commandHistory := commandHistory st; historyIndex := historyIndex st;
     autocompleteSuggestions := autocompleteSuggestions st;
     autocompleteIndex := i; autocompleteBaseInput := autocompleteBaseInput st;
     terminal := terminal st; promptCount := promptCount st;
     hiddenInput := hiddenInput st; opened := opened st;
     pending := pending st |}.

Definition set_terminal (v : list Node) (st : State) : State :=
  {| currentDirectory := currentDirectory st;
     fileSystemCache := fileSystemCache st; currentTheme := currentTheme st;
     dataTheme := dataTheme st; savedTheme := savedTheme st;
     commandHistory := commandHistory st; historyIndex := historyIndex st;
     autocompleteSuggestions := autocompleteSuggestions st;
     autocompleteIndex := autocompleteIndex st;
     autocompleteBaseInput := autocompleteBaseInput st; terminal := v;
     promptCount := promptCount st; hiddenInput := hiddenInput st;
     opened := opened st; pending := pending st |}.

Definition set_promptCount (v : nat) (st : State) : State :=
  {| currentDirectory := currentDirectory st;
     fileSystemCache := fileSystemCache st; currentTheme := currentTheme st;
     dataTheme := dataTheme st; savedTheme := savedTheme st;
     commandHistory := commandHistory st; historyIndex := historyIndex st;
     autocompleteSuggestions := autocompleteSuggestions st;
     autocompleteIndex := autocompleteIndex st;
     autocompleteBaseInput := autocompleteBaseInput st;
     terminal := terminal st; promptCount := v; hiddenInput := hiddenInput st;
     opened := opened st; pending := pending st |}.

Definition set_hiddenInput (v : string) (st : State) : State :=
  {| currentDirectory := currentDirectory st;
     fileSystemCache := fileSystemCache st; currentTheme := currentTheme st;
     dataTheme := dataTheme st; savedTheme := savedTheme st;
     commandHistory := commandHistory st; historyIndex := historyIndex st;
     autocompleteSuggestions := autocompleteSuggestions st;
     autocompleteIndex := autocompleteIndex st;
     autocompleteBaseInput := autocompleteBaseInput st;
     terminal := terminal st; promptCount := promptCount st; hiddenInput := v;
     opened := opened st; pending := pending st |}.

Definition set_opened (v : list string) (st : State) : State :=
  {| currentDirectory := currentDirectory st;
     fileSystemCache := fileSystemCache st; currentTheme := currentTheme st;
     dataTheme := dataTheme st; savedTheme := savedTheme st;
     commandHistory := commandHistory st; historyIndex := historyIndex st;
     autocompleteSuggestions := autocompleteSuggestions st;
     autocompleteIndex := autocompleteIndex st;
     autocompleteBaseInput := autocompleteBaseInput st;
     terminal := terminal st; promptCount := promptCount st;
     hiddenInput := hiddenInput st; opened := v; pending := pending st |}.

Definition set_pending (v : list Request) (st : State) : State :=
  {| currentDirectory := currentDirectory st;
     fileSystemCache := fileSystemCache st; currentTheme := currentTheme st;
     dataTheme := dataTheme st; savedTheme := savedTheme st;
     commandHistory := commandHistory st; historyIndex := historyIndex st;
     autocompleteSuggestions := autocompleteSuggestions st;
     autocompleteIndex := autocompleteIndex st;
     autocompleteBaseInput := autocompleteBaseInput st;
     terminal := terminal st; promptCount := promptCount st;
     hiddenInput := hiddenInput st; opened := opened st; pending := v |}.

(** [terminal.appendChild(node)]. *)
Definition appendChild (n : Node) (st : State) : State :=
  set_terminal (terminal st ++ [n]) st.

Definition appendChildren (ns : list Node) (st : State) : State :=
  set_terminal (terminal st ++ ns) st.

(** The outcome of a call that may raise a [TypeError]. *)
Inductive Completion (A : Type) :=
| Normal (a : A)
| Thrown.
Arguments Normal {A} a.
Arguments Thrown {A}.

(** The object [handleCommand] resolves to.  The property
    [currentDirectory] is absent from the object the [clear] case returns. *)
Record Outcome := {
  clear : bool;
  outcome_currentDirectory : option string
}.

(** ** theme-manager.js *)

Module ThemeManager.

Record Theme := { name : string; description : string }.

(** The own properties of the [themes] object, in insertion order. *)
Definition themes : list (string * Theme) :=
  [ ("catppuccin-mocha",
     {| name := "Catppuccin Mocha";
        description := "🍫 The darkest Catppuccin flavor with rich, deep colors" |});
    ("gruvbox",
     {| name := "Gruvbox";
        description := "🍂 Retro groove colors with warm earth tones" |});
    ("matrix",
     {| name := "Matrix";
        description := "💊 Green on black like the Matrix terminal" |});
    ("catppuccin-latte",
     {| name := "Catppuccin Latte";
        description := "☕ A warm, light theme perfect for daytime coding" |}) ].

(** [Object.keys(themes)]. *)
Definition keys : list string := map fst themes.

(** [themes] is an object literal: a property that is not its own is looked
    up on [Object.prototype].  The methods found there, each with the
    [name] of the function. *)
Definition objectPrototypeMethods : list (string * string) :=
  [ ("constructor", "Object");
    ("hasOwnProperty", "hasOwnProperty");
    ("isPrototypeOf", "isPrototypeOf");
    ("propertyIsEnumerable", "propertyIsEnumerable");
    ("toLocaleString", "toLocaleString");
    ("toString", "toString");
    ("valueOf", "valueOf");
    ("__defineGetter__", "__defineGetter__");
    ("__defineSetter__", "__defineSetter__");
    ("__lookupGetter__", "__lookupGetter__");
    ("__lookupSetter__", "__lookupSetter__") ].

(** What [themes[key]] evaluates to when it is not [undefined]. *)
Inductive Value :=
| Own (t : Theme)
| PrototypeMethod (functionName : string)
| PrototypeObject.

Fixpoint assoc {A : Type} (k : string) (l : list (string * A)) : option A :=
  match l with
  | [] => None
  | (k', v) :: r => if String.eqb k' k then Some v else assoc k r
  end.

(** [themes[key]]; [None] is [undefined]. *)
Definition get (key : string) : option Value :=
  match assoc key themes with
  | Some t => Some (Own t)
  | None =>
      match assoc key objectPrototypeMethods with
      | Some f => Some (PrototypeMethod f)
      | None => if String.eqb key "__proto__" then Some PrototypeObject else None
      end
  end.

(** [`${v.name}`] and [`${v.description}`] in a template. *)
Definition nameOf (v : Value) : string :=
  match v with
  | Own t => name t
  | PrototypeMethod f => f
  | PrototypeObject => "undefined"
  end.

Definition descriptionOf (v : Value) : string :=
  match v with
  | Own t => description t
  | _ => "undefined"
  end.

Definition getCurrentTheme (st : State) : string := currentTheme st.

Definition setTheme (themeName : string) (st : State) : bool * State :=
  match get themeName with
  | None => (false, st)
  | Some _ =>
      (true,
       set_theme themeName
         (if String.eqb themeName "catppuccin-mocha" then None else Some themeName)
         (Some themeName) st)
  end.

Definition loadSavedTheme (st : State) : State :=
  match JS.truthy (savedTheme st) with
  | Some saved =>
      match get saved with
      | Some _ => snd (setTheme saved st)
      | None => st
      end
  | None => st
  end.

Definition getThemesList : list (string * Theme) := themes.

End ThemeManager.

(** ** terminal-logic.js *)

(** [commandList]: command name and description, in the order of the file. *)
Definition commandList : list (string * string) :=
  [ (".", "Open the source code repository from current directory");
    ("about", "Learn about me and my background");
    ("cat", "Display content of a file (e.g., cat README.md)");
    ("cd", "Change directory (e.g., cd js, cd ..)");
    ("clear", "Clear the terminal");
    ("echo", "Print text to the terminal");
    ("education", "Show my educational background");
    ("email", "Open your email client to contact me");
    ("github", "Open my GitHub profile");
    ("help", "Show this help message");
    ("history", "Show command history");
    ("linkedin", "Open my LinkedIn profile");
    ("ls", "List directory contents");
    ("pwd", "Print current working directory");
    ("themes", "Change the terminal theme (coming soon)");
    ("welcome", "Display the welcome message");
    ("whoami", "Display the current user") ].

(** The cases of the [switch] of [handleCommand]. *)
Inductive Command :=
| CmdDot | CmdLs | CmdCat | CmdCd | CmdClear | CmdHelp | CmdHistory
| CmdGithub | CmdLinkedin | CmdPwd | CmdThemes | CmdWelcome | CmdWhoami
| CmdAbout | CmdEducation | CmdEmail | CmdEcho | CmdDefault.

Definition classify (normalizedCommand : string) : Command :=
  if String.eqb normalizedCommand "." then CmdDot
  else if String.eqb normalizedCommand "ls" then CmdLs
  else if String.eqb normalizedCommand "cat" then CmdCat
  else if String.eqb normalizedCommand "cd" then CmdCd
  else if String.eqb normalizedCommand "clear" then CmdClear
  else if String.eqb normalizedCommand "help" then CmdHelp
  else if String.eqb normalizedCommand "history" then CmdHistory
  else if String.eqb normalizedCommand "github" then CmdGithub
  else if String.eqb normalizedCommand "linkedin" then CmdLinkedin
  else if String.eqb normalizedCommand "pwd" then CmdPwd
  else if String.eqb normalizedCommand "themes" then CmdThemes
  else if String.eqb normalizedCommand "welcome" then CmdWelcome
  else if String.eqb normalizedCommand "whoami" then CmdWhoami
  else if String.eqb normalizedCommand "about" then CmdAbout
  else if String.eqb normalizedCommand "education" then CmdEducation
  else if String.eqb normalizedCommand "email" then CmdEmail
  else if String.eqb normalizedCommand "echo" then CmdEcho
  else CmdDefault.

#[global] Instance Command_eq_dec : EqDecision Command.
Proof. solve_decision. Defined.

(** The case that [handleCommand] selects for a submitted line: the first
    space-separated token of the trimmed line, in lower case. *)
Definition commandOf (input : string) : Command :=
  classify (JS.toLowerCase (hd "" (JS.split " " (JS.trim input)))).

(** The [dirDisplay] of a prompt. *)
Definition dirDisplay (currentDirectory : string) : string :=
  if String.eqb currentDirectory "/" then "~" else "~" +:+ currentDirectory.

(** A fresh prompt, with an empty [#user-input] span. *)
Definition newPromptNode (st : State) : Node :=
  Prompt (promptCount st) (dirDisplay (currentDirectory st)) "".

Definition isFile (i : Item) : bool := String.eqb (item_type i) "file".
Definition isDir (i : Item) : bool := String.eqb (item_type i) "dir".

(** The path resolution of the [cd] case. *)
Definition cdTarget (args : list string) : string :=
  JS.orElse (hd "" args) "/".

Definition cdNewPath (currentDirectory targetDir : string) : string :=
  if String.eqb targetDir ".." then
    JS.orElse (JS.substring currentDirectory 0 (JS.lastIndexOf "/" currentDirectory)) "/"
  else if JS.startsWith targetDir "/" then targetDir
  else if String.eqb currentDirectory "/" then "/" +:+ targetDir
  else currentDirectory +:+ "/" +:+ targetDir.

Definition cdParentPath (newPath : string) : string :=
  JS.orElse (JS.substring newPath 0 (JS.lastIndexOf "/" newPath)) "/".

Definition cdDirName (newPath : string) : string :=
  JS.substringFrom newPath (JS.lastIndexOf "/" newPath + 1).

(** [contents.filter(item => item.type === 'file' && item.name.startsWith(partial))
    .map(item => item.name)], after [if (!contents) return []].  An object
    has no [filter]. *)
Definition fileCompletions (partial : string) (contents : option Json)
  : Completion (list string) :=
  match contents with
  | None => Normal []
  | Some (JArray items) =>
      Normal (map item_name
                (List.filter (fun i => isFile i && JS.startsWith (item_name i) partial) items))
  | Some (JObject _ _) => Thrown
  end.

(** The part of [getDirectoryCompletions] after the listing has arrived; it
    reads [currentDirectory] as it is then. *)
Definition directoryCompletions (partial : string) (contents : option Json) (st : State)
  : Completion (list string) :=
  match contents with
  | None => Normal []
  | Some (JArray items) =>
      let directories :=
        map item_name
          (List.filter (fun i => isDir i && JS.startsWith (item_name i) partial) items) in
      Normal (if negb (String.eqb (currentDirectory st) "/") && JS.startsWith ".." partial
              then ".." :: directories else directories)
  | Some (JObject _ _) => Thrown
  end.

Definition getThemeCompletions (partial : string) : list string :=
  List.filter (fun t => JS.startsWith t partial) ThemeManager.keys.

Section TerminalLogic.

(** The remote content provider: what [fetch] of the contents URL of a path
    followed by [response.json()] yields, [None] when the request fails or
    the response is not ok. *)
Variable fetch : string -> option Json.

(** The browser's [atob]; [None] when it raises. *)
Variable atob : string -> option string.

(** The part of [getDirectoryContents] from the [fetch] on. *)
Definition fetchDirectory (path : string) (st : State) : option Json * State :=
  match fetch path with
  | Some data => (Some data, set_fileSystemCache (<[path := data]> (fileSystemCache st)) st)
  | None => (None, st)
  end.

Definition getDirectoryContents (path : string) (st : State) : option Json * State :=
  match fileSystemCache st !! path with
  | Some data => (Some data, st)
  | None => fetchDirectory path st
  end.

(** [cachedData.content], when truthy. *)
Definition cachedContent (path : string) (st : State) : option string :=
  match fileSystemCache st !! path with
  | Some (JObject _ content) => JS.truthy content
  | _ => None
  end.

(** [None] is the [null] the function returns. *)
Definition getFileContent (path : string) (st : State) : option string * State :=
  match cachedContent path st with
  | Some content =>
      match atob content with
      | Some text => (Some text, st)
      | None => (Some "Error: Could not decode file content.", st)
      end
  | None =>
      match fetch path with
      | None => (None, st)
      | Some (JObject (Some type) content) =>
          match String.eqb type "file", JS.truthy content with
          | true, Some c =>
              let st' :=
                set_fileSystemCache
                  (<[path := JObject (Some type) content]> (fileSystemCache st)) st in
              match atob c with
              | Some text => (Some text, st')
              | None => (None, st')
              end
          | _, _ => (None, st)
          end
      | Some _ => (None, st)
      end
  end.

Definition getFileCompletions (partial : string) (st : State)
  : Completion (list string) * State :=
  let (contents, st') := getDirectoryContents (currentDirectory st) st in
  (fileCompletions partial contents, st').

Definition getDirectoryCompletions (partial : string) (st : State)
  : Completion (list string) * State :=
  let (contents, st') := getDirectoryContents (currentDirectory st) st in
  (directoryCompletions partial contents st', st').

Definition getAutocompleteSuggestions (input : string) (st : State)
  : Completion (list string) * State :=
  let parts := JS.split " " (JS.trim input) in
  let command := JS.toLowerCase (hd "" parts) in
  let arg := JS.orElse (nth 1 parts "") "" in
  if Nat.eqb (length parts) 1 then
    (Normal (List.filter (fun c => JS.startsWith c command) (map fst commandList)), st)
  else if Nat.eqb (length parts) 2 then
    if String.eqb command "cat" then getFileCompletions arg st
    else if String.eqb command "themes" then (Normal (getThemeCompletions arg), st)
    else if String.eqb command "cd" then getDirectoryCompletions arg st
    else (Normal [], st)
  else (Normal [], st).

Definition getCurrentDirectory (st : State) : string := currentDirectory st.

(** [resetCommandHistory] of terminal-events.js. *)
Definition resetCommandHistory (st : State) : State := set_history [] (-1) st.

Definition resetTerminal (st : State) : State :=
  let st1 := set_terminal [WelcomeMessage] st in
  let st2 := resetCommandHistory st1 in
  let st3 := set_fileSystemCache ∅ (set_currentDirectory "/" st2) in
  set_promptCount (S (promptCount st3))
    (appendChild (Prompt (promptCount st3) "~" "") st3).

(** The final [return { clear: false, currentDirectory }]. *)
Definition finish (st : State) : Completion Outcome * State :=
  (Normal {| clear := false; outcome_currentDirectory := Some (currentDirectory st) |}, st).

Definition openLater (url : string) (st : State) : State :=
  set_opened (opened st ++ [url]) st.

Definition historyLines (h : list string) : list Node :=
  imap (fun i cmd => HistoryLine (Z.of_nat i + 1) cmd) h.

Definition themeLine (currentTheme : string) (e : string * ThemeManager.Theme) : Node :=
  ThemeLine (fst e) (String.eqb (fst e) currentTheme) (ThemeManager.description (snd e)).

Definition handleCommand (input : string) (st : State) : Completion Outcome * State :=
  let trimmedInput := JS.trim input in
  let parts := JS.split " " trimmedInput in
  let command := hd "" parts in
  let args := tl parts in
  let normalizedCommand := JS.toLowerCase command in
  match classify normalizedCommand with
  | CmdDot =>
      finish
        (openLater ("https://github.com/Peetzie/whoami.sh/tree/main" +:+ currentDirectory st)
           (appendChild
              (Line ("Opening directory '" +:+ currentDirectory st +:+ "' in repository..."))
              st))
  | CmdLs =>
      let (contents, st1) := getDirectoryContents (currentDirectory st) st in
      match contents with
      | Some (JArray items) =>
          finish
            (appendChildren
               (map (fun i => if isDir i then DirLine (item_name i) else Line (item_name i))
                    items) st1)
      | Some (JObject _ _) => (Thrown, st1)
      | None => finish (appendChild (Line "Error: Could not list directory contents.") st1)
      end
  | CmdCat =>
      match JS.truthy (head args) with
      | None => finish (appendChildren [CatUsage; CatUsageTip] st)
      | Some filename =>
          let filePath :=
            if String.eqb (currentDirectory st) "/" then "/" +:+ filename
            else currentDirectory st +:+ "/" +:+ filename in
          let (fileContent, st1) := getFileContent filePath st in
          match fileContent with
          | Some text => finish (appendChild (FileContent text) st1)
          | None =>
              let st2 := appendChild (CatNotFound filename) st1 in
              let (contents, st3) := getDirectoryContents (currentDirectory st2) st2 in
              match contents with
              | Some (JArray items) =>
                  let availableFiles := map item_name (List.filter isFile items) in
                  if (0 <? length availableFiles)%nat
                  then finish (appendChild (AvailableFiles availableFiles) st3)
                  else finish st3
              | Some (JObject _ _) => (Thrown, st3)
              | None => finish st3
              end
          end
      end
  | CmdCd =>
      let targetDir := cdTarget args in
      let newPath := cdNewPath (currentDirectory st) targetDir in
      let parentPath := cdParentPath newPath in
      let dirName := cdDirName newPath in
      let (parentContents, st1) := getDirectoryContents parentPath st in
      match parentContents with
      | Some (JObject _ _) => (Thrown, st1)
      | _ =>
          let targetIsDirectory :=
            match parentContents with
            | Some (JArray items) =>
                existsb (fun i => String.eqb (item_name i) dirName && isDir i) items
            | _ => false
            end in
          if String.eqb newPath "/" || targetIsDirectory
          then finish (set_currentDirectory newPath st1)
          else finish (appendChild (Line ("cd: no such file or directory: " +:+ targetDir)) st1)
      end
  | CmdClear =>
      (Normal {| clear := true; outcome_currentDirectory := None |},
       set_promptCount (S (promptCount st)) (set_terminal [newPromptNode st] st))
  | CmdHelp =>
      finish
        (appendChildren
           ([Line "Available commands:"; Br]
              ++ map (fun c => HelpLine (fst c) (snd c)) commandList
              ++ [HelpTips]) st)
  | CmdHistory => finish (appendChildren (historyLines (commandHistory st)) st)
  | CmdGithub =>
      finish (openLater "https://github.com/Peetzie"
                (appendChild (Line "Opening GitHub profile in a new window...") st))
  | CmdLinkedin =>
      finish (openLater "https://www.linkedin.com/in/frederikpeetzschoularsen/"
                (appendChild (Line "Opening LinkedIn profile...") st))
  | CmdPwd =>
      finish
        (appendChild
           (Line ("/home/guest" +:+
                  (if String.eqb (currentDirectory st) "/" then "" else currentDirectory st)))
           st)
  | CmdThemes =>
      match JS.truthy (head args) with
      | None =>
          let currentTheme := ThemeManager.getCurrentTheme st in
          match ThemeManager.get currentTheme with
          | None => (Thrown, st)
          | Some v =>
              finish
                (appendChildren
                   ([ThemeTitle (ThemeManager.nameOf v); Br]
                      ++ map (themeLine currentTheme) ThemeManager.getThemesList
                      ++ [ThemeUsage]) st)
          end
      | Some themeArg =>
          let (success, st1) := ThemeManager.setTheme themeArg st in
          if success then
            match ThemeManager.get themeArg with
            | None => (Thrown, st1)
            | Some v =>
                finish
                  (appendChild
                     (ThemeChanged (ThemeManager.nameOf v) (ThemeManager.descriptionOf v))
                     st1)
            end
          else finish (appendChild (ThemeNotFound themeArg) st1)
      end
  | CmdWelcome => finish (appendChild WelcomeMessage st)
  | CmdWhoami => finish (appendChild (Line "guest") st)
  | CmdAbout => finish (appendChild AboutBio st)
  | CmdEducation => finish (appendChild EducationBio st)
  | CmdEmail =>
      finish (openLater "mailto:flarsen.uphold283@simplelogin.com"
                (appendChild (Line "Opening email client...") st))
  | CmdEcho => finish (appendChild (Line (JS.join " " args)) st)
  | CmdDefault =>
      if String.eqb (JS.toLowerCase trimmedInput) "about me"
      then finish (appendChild AboutMeTyped st)
      else finish (appendChild (Line ("Command not found: " +:+ trimmedInput)) st)
  end.

End TerminalLogic.

(** ** terminal-events.js *)

(** [array[i]]; [None] is [undefined]. *)
Definition arrayGet (l : list string) (i : Z) : option string :=
  if i <? 0 then None else l !! Z.to_nat i.

(** A value written into a text field or a template. *)
Definition display (x : option string) : string := from_option id "undefined" x.

Definition isCompletionDisplay (n : Node) : bool :=
  match n with
  | CompletionSuggestions _ | CompletionIndicator _ _ => true
  | _ => false
  end.

(** [document.getElementById('user-input')]: the span of the first prompt of
    the document, identified by its prompt. *)
Fixpoint userInputSpan (t : list Node) : option nat :=
  match t with
  | [] => None
  | Prompt id _ _ :: _ => Some id
  | _ :: r => userInputSpan r
  end.

(** [if (userInputSpan) userInputSpan.textContent = text].  The span of a
    prompt that has left the document changes nothing that is rendered. *)
Definition setSpanText (span : option nat) (text : string) (t : list Node) : list Node :=
  match span with
  | None => t
  | Some id =>
      map (fun n => match n with
                    | Prompt id' d u => if Nat.eqb id' id then Prompt id' d text else n
                    | _ => n
                    end) t
  end.

(** [currentPrompt.insertAdjacentElement('afterend', ...)] for the nodes
    [ns] in order; nothing is inserted next to a prompt outside the
    document. *)
Fixpoint insertAfterPrompt (id : nat) (ns : list Node) (t : list Node) : list Node :=
  match t with
  | [] => []
  | Prompt id' d u :: r =>
      if Nat.eqb id' id then Prompt id' d u :: ns ++ r
      else Prompt id' d u :: insertAfterPrompt id ns r
  | n :: r => n :: insertAfterPrompt id ns r
  end.

(** [insertAdjacentElement('beforebegin', echo)] followed by [remove()]. *)
Fixpoint replacePrompt (id : nat) (echo : Node) (t : list Node) : list Node :=
  match t with
  | [] => []
  | Prompt id' d u :: r =>
      if Nat.eqb id' id then echo :: r else Prompt id' d u :: replacePrompt id echo r
  | n :: r => n :: replacePrompt id echo r
  end.

Definition resetAutocompleteState (st : State) : State :=
  let st1 := set_autocomplete [] (-1) "" st in
  set_terminal (List.filter (fun n => negb (isCompletionDisplay n)) (terminal st1)) st1.

Definition getBaseInput (input : string) : string :=
  let parts := JS.split " " (JS.trim input) in
  if Nat.eqb (length parts) 1 then "" else JS.join " " (removelast parts).

Definition applyCompletion (span : option nat) (completion : string) (st : State) : State :=
  let parts := JS.split " " (JS.trim (hiddenInput st)) in
  let value :=
    if Nat.eqb (length parts) 1 then completion +:+ " "
    else JS.join " " (removelast parts ++ [completion]) +:+ " " in
  let st1 := set_hiddenInput value st in
  set_terminal (setSpanText span value (terminal st1)) st1.

(** Without a span, [userInputSpan.closest] raises after the old displays
    were removed; nothing follows the call in either caller. *)
Definition showCompletionOptions (span : option nat) (suggestions : list string)
    (currentIndex : Z) (st : State) : State :=
  let t := List.filter (fun n => negb (isCompletionDisplay n)) (terminal st) in
  match span with
  | None => set_terminal t st
  | Some id =>
      set_terminal
        (insertAfterPrompt id
           [CompletionSuggestions suggestions; CompletionIndicator currentIndex suggestions] t)
        st
  end.

Definition showNoMatchesMessage (span : option nat) (st : State) : State :=
  match span with
  | None => st
  | Some id => set_terminal (insertAfterPrompt id [NoCompletions] (terminal st)) st
  end.

Definition cycleToNextSuggestion (span : option nat) (st : State) : State :=
  let suggestions := autocompleteSuggestions st in
  if Nat.eqb (length suggestions) 0 then st
  else
    let index := Z.rem (autocompleteIndex st + 1) (Z.of_nat (length suggestions)) in
    let st1 := set_autocompleteIndex index st in
    let st2 := applyCompletion span (display (arrayGet suggestions index)) st1 in
    showCompletionOptions span suggestions index st2.

(** The body of [startNewAutocompleteSession] after
    [await getAutocompleteSuggestions(currentInput)] has produced
    [suggestions]. *)
Definition receiveSuggestions (currentInput : string) (span : option nat)
    (suggestions : list string) (st : State) : State :=
  match suggestions with
  | [] => showNoMatchesMessage span st
  | first :: rest =>
      let st1 := set_autocomplete suggestions 0 (getBaseInput currentInput) st in
      match rest with
      | [] => resetAutocompleteState (applyCompletion span first st1)
      | _ => showCompletionOptions span suggestions 0 (applyCompletion span first st1)
      end
  end.

(** A new prompt after a command, and [hiddenInput.value = '']. *)
Definition renderNewPrompt (st : State) : State :=
  set_hiddenInput ""
    (set_promptCount (S (promptCount st)) (appendChild (newPromptNode st) st)).

Section TerminalEvents.

Variable fetch : string -> option Json.
Variable atob : string -> option string.

(** Whether [getAutocompleteSuggestions(input)] reaches [await fetch(...)]:
    a file or directory completion whose listing is not cached.  Every
    other call settles before the next event is handled. *)
Definition suspendsOnFetch (input : string) (span : option nat) (st : State)
  : option Request :=
  let parts := JS.split " " (JS.trim input) in
  let command := JS.toLowerCase (hd "" parts) in
  let arg := JS.orElse (nth 1 parts "") "" in
  let request kind :=
    match fileSystemCache st !! currentDirectory st with
    | Some _ => None
    | None => Some {| rq_input := input; rq_span := span; rq_kind := kind;
                      rq_partial := arg; rq_path := currentDirectory st |}
    end in
  if Nat.eqb (length parts) 2 then
    if String.eqb command "cat" then request FileCompletion
    else if String.eqb command "themes" then None
    else if String.eqb command "cd" then request DirectoryCompletion
    else None
  else None.

Definition startNewAutocompleteSession (currentInput : string) (span : option nat)
    (st : State) : State :=
  match suspendsOnFetch currentInput span st with
  | Some rq => set_pending (pending st ++ [rq]) st
  | None =>
      let (r, st1) := getAutocompleteSuggestions fetch currentInput st in
      match r with
      | Normal suggestions => receiveSuggestions currentInput span suggestions st1
      | Thrown => st1
      end
  end.

(** What the completion helper of a suspended request returns once the
    listing has arrived. *)
Definition requestSuggestions (rq : Request) (contents : option Json) (st : State)
  : Completion (list string) :=
  match rq_kind rq with
  | FileCompletion => fileCompletions (rq_partial rq) contents
  | DirectoryCompletion => directoryCompletions (rq_partial rq) contents st
  end.

(** The network answers a suspended request: [getDirectoryContents] stores
    the listing, the completion helper filters it, and
    [startNewAutocompleteSession] continues after its [await]. *)
Definition resumeAutocomplete (rq : Request) (st : State) : State :=
  let (contents, st1) := fetchDirectory fetch (rq_path rq) st in
  match requestSuggestions rq contents st1 with
  | Normal suggestions => receiveSuggestions (rq_input rq) (rq_span rq) suggestions st1
  | Thrown => st1
  end.

Definition loadHistory (span : option nat) (index : Z) (st : State) : State :=
  let h := commandHistory st in
  let historicalCommand := display (arrayGet h (Z.of_nat (length h) - 1 - index)) in
  let st1 := set_hiddenInput historicalCommand (set_historyIndex index st) in
  set_terminal (setSpanText span historicalCommand (terminal st1)) st1.

Definition arrowUp (span : option nat) (st : State) : State :=
  let len := Z.of_nat (length (commandHistory st)) in
  if (0 <? len) && (historyIndex st <? len - 1)
  then loadHistory span (historyIndex st + 1) st
  else st.

Definition arrowDown (span : option nat) (st : State) : State :=
  if 0 <? historyIndex st then loadHistory span (historyIndex st - 1) st
  else if historyIndex st =? 0 then
    let st1 := set_hiddenInput "" (set_historyIndex (-1) st) in
    set_terminal (setSpanText span "" (terminal st1)) st1
  else st.

Definition clearScreen (st : State) : State :=
  let st1 := resetAutocompleteState st in
  let st2 := set_promptCount (S (promptCount st1)) (set_terminal [newPromptNode st1] st1) in
  let st3 := set_hiddenInput "" st2 in
  set_terminal (setSpanText (userInputSpan (terminal st3)) "" (terminal st3)) st3.

(** The Enter branch, run to completion: no other event is handled while
    the command awaits the network. *)
Definition enter (span : option nat) (st : State) : State :=
  let st1 := resetAutocompleteState st in
  let command := JS.trim (hiddenInput st1) in
  if String.eqb command "" then st1
  else
    let st2 := set_history (commandHistory st1 ++ [command]) (-1) st1 in
    if String.eqb (JS.toLowerCase command) "clear" then
      let (result, st3) := handleCommand fetch atob command st2 in
      match result with
      | Normal o => if clear o then set_hiddenInput "" st3 else st3
      | Thrown => st3
      end
    else
      match span with
      | None => st2
      | Some id =>
          let commandEcho := CommandEcho (dirDisplay (currentDirectory st2)) command in
          let st3 := set_terminal (replacePrompt id commandEcho (terminal st2)) st2 in
          let (result, st4) := handleCommand fetch atob command st3 in
          match result with
          | Normal o => if clear o then st4 else renderNewPrompt st4
          | Thrown => renderNewPrompt (appendChild (ErrorLine "Error executing command.") st4)
          end
      end.

Definition keydown (ctrlKey : bool) (key : string) (st : State) : State :=
  let span := userInputSpan (terminal st) in
  if ctrlKey && String.eqb (JS.toLowerCase key) "u" then
    let currentInput := JS.trim (hiddenInput st) in
    if String.eqb currentInput "" then st
    else if (0 <? length (autocompleteSuggestions st))%nat
            && String.eqb (autocompleteBaseInput st) (getBaseInput currentInput)
    then cycleToNextSuggestion span st
    else startNewAutocompleteSession currentInput span st
  else
    let st1 := resetAutocompleteState st in
    if ctrlKey && String.eqb (JS.toLowerCase key) "l" then clearScreen st1
    else
      let st2 :=
        if String.eqb key "ArrowUp" then arrowUp span st1
        else if String.eqb key "ArrowDown" then arrowDown span st1
        else st1 in
      if String.eqb key "Enter" then enter span st2 else st2.

(** The [input] listener: the field now holds [value]. *)
Definition input (value : string) (st : State) : State :=
  let st1 := set_hiddenInput value st in
  let st2 :=
    set_terminal (setSpanText (userInputSpan (terminal st1)) value (terminal st1)) st1 in
  resetAutocompleteState st2.

(** What the event loop delivers. *)
Inductive Event :=
| Input (value : string)
| KeyDown (ctrlKey : bool) (key : string)
| Response (n : nat).

Definition step (e : Event) (st : State) : State :=
  match e with
  | Input value => input value st
  | KeyDown ctrlKey key => keydown ctrlKey key st
  | Response n =>
      match pending st !! n with
      | Some rq => resumeAutocomplete rq (set_pending (delete n (pending st)) st)
      | None => st
      end
  end.

Definition run (events : list Event) (st : State) : State :=
  fold_left (fun s e => step e s) events st.

(** Typing a line and pressing Enter. *)
Definition submit (line : string) (st : State) : State :=
  keydown false "Enter" (input line st).

End TerminalEvents.

(** The page when the script starts, and after [DOMContentLoaded]. *)
Definition emptyPage (saved : option string) : State :=
  {| currentDirectory := "/"; fileSystemCache := ∅;
     currentTheme := "catppuccin-mocha"; dataTheme := None; savedTheme := saved;
     commandHistory := []; historyIndex := -1;
     autocompleteSuggestions := []; autocompleteIndex := -1;
     autocompleteBaseInput := "";
     terminal := []; promptCount := 0; hiddenInput := ""; opened := []; pending := [] |}.

Definition startup (saved : option string) : State :=
  resetTerminal (ThemeManager.loadSavedTheme (emptyPage saved)).

(** History-previous and history-next: the arrow keys without modifier. *)
Definition pressUp (fetch : string -> option Json) (atob : string -> option string)
  : State -> State := keydown fetch atob false "ArrowUp".

Definition pressDown (fetch : string -> option Json) (atob : string -> option string)
  : State -> State := keydown fetch atob false "ArrowDown".

(** ** Vocabulary of the properties *)

(** The text consists of ASCII characters: on such a text [JS.trim] and
    [JS.toLowerCase] are [String.prototype.trim] and
    [String.prototype.toLowerCase]. *)
Definition asciiText (s : string) : bool :=
  forallb (fun a => (N_of_ascii a <? 128)%N) (list_ascii_of_string s).

Definition noSlash (s : string) : bool :=
  forallb (fun c => negb (Ascii.eqb c "/")) (list_ascii_of_string s).

Fixpoint endsWithSlash (s : string) : bool :=
  match s with
  | EmptyString => false
  | String a EmptyString => Ascii.eqb a "/"
  | String _ s' => endsWithSlash s'
  end.

Definition absolute (p : string) : bool := JS.startsWith p "/".

(** No empty, [.] or [..] segment after the leading separator. *)
Definition normalizedPath (p : string) : bool :=
  String.eqb p "/"
  || forallb (fun seg => negb (String.eqb seg "" || String.eqb seg "." || String.eqb seg ".."))
       (tl (JS.split "/" p)).

(** Absolute, normalized, and without a trailing slash unless it is the
    root. *)
Definition normalizedAbsolutePath (p : string) : bool :=
  absolute p && normalizedPath p && (negb (endsWithSlash p) || String.eqb p "/").

(** Absolute, and without a trailing slash unless it is the root. *)
Definition pathInvariant (p : string) : Prop :=
  absolute p = true /\ (endsWithSlash p = true -> p = "/").

(** Every entry of a listing has a name. *)
Definition namedListing (d : Json) : Prop :=
  match d with
  | JArray items => Forall (fun i => item_name i <> "") items
  | JObject _ _ => True
  end.

Definition namedRemote (fetch : string -> option Json) : Prop :=
  forall path d, fetch path = Some d -> namedListing d.

Definition namedCache (st : State) : Prop :=
  forall path d, fileSystemCache st !! path = Some d -> namedListing d.

Definition wellFormedState (st : State) : Prop :=
  pathInvariant (currentDirectory st) /\ namedCache st.

(** [st'] has the working directory and the cache of [st]. *)
Definition sameFS (st st' : State) : Prop :=
  currentDirectory st' = currentDirectory st /\ fileSystemCache st' = fileSystemCache st.

(** Session, working directory and cache at their initial values. *)
Definition fullyReset (st : State) : Prop :=
  commandHistory st = [] /\ historyIndex st = -1 /\
  currentDirectory st = "/" /\ fileSystemCache st = ∅.

(** ** A sample repository *)

Definition sampleRoot : list Item :=
  [ {| item_name := "README.md"; item_type := "file" |};
    {| item_name := "css"; item_type := "dir" |};
    {| item_name := "index.html"; item_type := "file" |};
    {| item_name := "js"; item_type := "dir" |} ].

(** [README.md] holds the text [# hi]; the content of [broken] is not
    base64. *)
Definition sampleRemote (path : string) : option Json :=
  if String.eqb path "/" then Some (JArray sampleRoot)
  else if String.eqb path "/js" then
    Some (JArray [ {| item_name := "main.js"; item_type := "file" |};
                   {| item_name := "terminal-logic.js"; item_type := "file" |} ])
  else if String.eqb path "/README.md" then
    Some (JObject (Some "file") (Some "IyBoaQ=="))
  else if String.eqb path "/broken" then
    Some (JObject (Some "file") (Some "%%%"))
  else None.

(** A provider that lists a directory without a name under [/js]. *)
Definition unnamedRemote (path : string) : option Json :=
  if String.eqb path "/" then Some (JArray sampleRoot)
  else if String.eqb path "/js" then
    Some (JArray [ {| item_name := ""; item_type := "dir" |} ])
  else None.

Definition sampleRun : list Event -> State -> State := run sampleRemote Base64.atob.

Definition sampleSubmit : string -> State -> State := submit sampleRemote Base64.atob.

(** The suggest request issued by Ctrl+U on the line [cd j] in the root. *)
Definition sampleRequest : Request :=
  {| rq_input := "cd j"; rq_span := Some 0%nat; rq_kind := DirectoryCompletion;
     rq_partial := "j"; rq_path := "/" |}.

Ltac unfold_logic :=
  unfold handleCommand, finish, openLater, appendChildren, appendChild,
    getFileContent, getDirectoryContents, fetchDirectory,
    ThemeManager.setTheme, newPromptNode in *.

Ltac frame :=
  unfold sameFS, resetAutocompleteState, applyCompletion, showCompletionOptions,
    showNoMatchesMessage, renderNewPrompt, appendChild, newPromptNode;
  repeat case_match; simpl; auto.

(** ** Further vocabulary *)

(** [s] has no character [c]. *)
Definition lacks (c : ascii) (s : string) : bool :=
  forallb (fun a => negb (Ascii.eqb a c)) (list_ascii_of_string s).

(** A non-empty text without white space: what a line splits into when it
    is typed as one argument. *)
Definition token (s : string) : bool :=
  negb (String.eqb s "")
  && forallb (fun a => negb (JS.isWhiteSpace a)) (list_ascii_of_string s).

(** [s] starts with a character that [trim] keeps. *)
Definition startsNonWs (s : string) : bool :=
  match s with
  | EmptyString => false
  | String a _ => negb (JS.isWhiteSpace a)
  end.

(** Every cached entry is what the content provider answers for its path. *)
Definition coherentCache (fetch : string -> option Json) (st : State) : Prop :=
  forall path d, fileSystemCache st !! path = Some d -> fetch path = Some d.

(** Every entry of the cache of [st] is an entry of the cache of [st']. *)
Definition cacheKeeps (st st' : State) : Prop :=
  forall path d,
    fileSystemCache st !! path = Some d -> fileSystemCache st' !! path = Some d.

(** The cache relative to a state [st0]: coherent with the provider, and
    holding every entry of [st0]. *)
Definition cacheInvariant (fetch : string -> option Json) (st0 st : State) : Prop :=
  coherentCache fetch st /\ cacheKeeps st0 st.

(** The history cursor is -1 or the distance of an entry from the newest. *)
Definition cursorInBounds (st : State) : Prop :=
  -1 <= historyIndex st < Z.of_nat (length (commandHistory st)).

(** The autocomplete variables when no session is active. *)
Definition idle (st : State) : Prop :=
  autocompleteSuggestions st = [] /\ autocompleteIndex st = -1
  /\ autocompleteBaseInput st = "".

(** No session, or one over at least two candidates with the index at one
    of them. *)
Definition sessionShape (st : State) : Prop :=
  idle st
  \/ ((2 <= length (autocompleteSuggestions st))%nat
      /\ 0 <= autocompleteIndex st < Z.of_nat (length (autocompleteSuggestions st))).

(** The line that applying the candidate [c] leaves in the input field when
    the tokens before the completed one are [base]. *)
Definition completedLine (base : list string) (c : string) : string :=
  JS.join " " (base ++ [c]) +:+ " ".

(** An autocomplete session over the candidates [l], at the candidate of
    index [i], for a line whose tokens before the completed one are [base]. *)
Definition cycling (base l : list string) (i : nat) (st : State) : Prop :=
  autocompleteSuggestions st = l /\ autocompleteIndex st = Z.of_nat i
  /\ (i < length l)%nat
  /\ autocompleteBaseInput st = JS.join " " base
  /\ hiddenInput st = completedLine base (nth i l "").

(** The tokens before the completed one, as a typed line yields them. *)
Definition baseTokens (base : list string) : Prop :=
  Forall (fun s => lacks " " s = true) base
  /\ (base = [] \/ startsNonWs (hd "" base) = true).

(** Ctrl+U. *)
Definition ctrlU (fetch : string -> option Json) (atob : string -> option string)
  : State -> State := keydown fetch atob true "u".

(** The path of the entry [name] of the directory [dir]. *)
Definition childPath (dir name : string) : string :=
  if String.eqb dir "/" then "/" +:+ name else dir +:+ "/" +:+ name.

(** The path the [cd] case resolves the argument of [line] to. *)
Definition cdPath (line : string) (st : State) : string :=
  cdNewPath (currentDirectory st) (cdTarget (tl (JS.split " " (JS.trim line)))).

(** The working directory is the root, or the cached listing of its parent
    has it as a directory. *)
Definition enteredThroughParent (st : State) : Prop :=
  currentDirectory st = "/"
  \/ exists items i,
       fileSystemCache st !! cdParentPath (currentDirectory st) = Some (JArray items)
       /\ In i items /\ item_name i = cdDirName (currentDirectory st) /\ isDir i = true.

(** What holds of the working directory and the cache in the states the
    page reaches. *)
Definition settled (fetch : string -> option Json) (st : State) : Prop :=
  coherentCache fetch st /\ enteredThroughParent st /\ currentDirectory st <> "".

(** The local calendar fields of a [Date]: [getFullYear()], [getMonth()]
    (0 to 11) and [getDate()]. *)
Record Date := { getFullYear : Z; getMonth : Z; getDate : Z }.

(** [calculateAge], as a function of [new Date(birthDateString)] and of
    [new Date()]. *)
Definition calculateAge (birth today : Date) : Z :=
  let age := getFullYear today - getFullYear birth in
  let monthDiff := getMonth today - getMonth birth in
  if (monthDiff <? 0) || ((monthDiff =? 0) && (getDate today <? getDate birth))
  then age - 1 else age.

(** [a] is on or before [b] in the calendar. *)
Definition onOrBefore (a b : Date) : Prop :=
  getFullYear a < getFullYear b
  \/ (getFullYear a = getFullYear b
      /\ (getMonth a < getMonth b
          \/ (getMonth a = getMonth b /\ getDate a <= getDate b))).

(** The day of [d], [n] years later. *)
Definition anniversary (d : Date) (n : Z) : Date :=
  {| getFullYear := getFullYear d + n; getMonth := getMonth d; getDate := getDate d |}.


(** * Properties *)

(** ** The model on concrete lines *)

Example trim_ex : JS.trim "  cd  js " = "cd  js".
Proof. reflexivity. Qed.
Example split_ex : JS.split " " "cd  js" = ["cd"; ""; "js"].
Proof. reflexivity. Qed.
Example split_empty_ex : JS.split " " "" = [""].
Proof. reflexivity. Qed.
Example lastIndexOf_ex : JS.lastIndexOf "/" "/js/lib" = 3.
Proof. reflexivity. Qed.
Example substring_ex : JS.substring "/js/lib" 0 3 = "/js".
Proof. reflexivity. Qed.
Example substring_neg_ex : JS.substring "js" 0 (-1) = "".
Proof. reflexivity. Qed.
Example lower_ex : JS.toLowerCase "Cd-Z@[" = "cd-z@[".
Proof. reflexivity. Qed.
Example atob_ex : Base64.atob "aGVsbG8=" = Some "hello".
Proof. reflexivity. Qed.
Example atob_newline_ex :
  Base64.atob ("aGVs" +:+ String "010" "bG8h") = Some "hello!".
Proof. reflexivity. Qed.
Example atob_bad_ex : Base64.atob "a" = None /\ Base64.atob "ab!d" = None.
Proof. split; reflexivity. Qed.

Example suggest_th_ex :
  fst (getAutocompleteSuggestions sampleRemote "th" (startup None)) = Normal ["themes"].
Proof. reflexivity. Qed.

Example cd_js_ex :
  currentDirectory (sampleSubmit "cd js" (startup None)) = "/js"
  /\ currentDirectory (sampleSubmit "cd .." (sampleSubmit "cd js" (startup None))) = "/".
Proof. split; vm_compute; reflexivity. Qed.

Example cat_missing_ex :
  terminal (sampleSubmit "cat missing.txt" (startup None))
  = [WelcomeMessage; CommandEcho "~" "cat missing.txt"; CatNotFound "missing.txt";
     AvailableFiles ["README.md"; "index.html"]; Prompt 1 "~" ""]
  /\ currentDirectory (sampleSubmit "cat missing.txt" (startup None)) = "/".
Proof. split; vm_compute; reflexivity. Qed.

Example cat_readme_ex :
  terminal (sampleSubmit "cat README.md" (startup None))
  = [WelcomeMessage; CommandEcho "~" "cat README.md"; FileContent "# hi"; Prompt 1 "~" ""].
Proof. vm_compute. reflexivity. Qed.

Example themes_gruvbox_ex :
  let st := sampleSubmit "themes gruvbox" (startup None) in
  currentTheme st = "gruvbox" /\ dataTheme st = Some "gruvbox"
  /\ savedTheme st = Some "gruvbox".
Proof. repeat split; vm_compute; reflexivity. Qed.

Example blank_line_ex :
  let st := sampleSubmit "   " (startup None) in
  commandHistory st = [] /\ currentDirectory st = "/"
  /\ terminal st = [WelcomeMessage; Prompt 0 "~" "   "].
Proof. repeat split; vm_compute; reflexivity. Qed.

Example cycle_wrap_ex :
  let st := sampleRun [Input "c"; KeyDown true "u"; KeyDown true "u"; KeyDown true "u";
                       KeyDown true "u"] (startup None) in
  autocompleteSuggestions st = ["cat"; "cd"; "clear"] /\ autocompleteIndex st = 0
  /\ hiddenInput st = "cat ".
Proof. repeat split; vm_compute; reflexivity. Qed.

(** ** Strings *)

Lemma string_app_cons a s t : String a s +:+ t = String a (s +:+ t).
Proof. reflexivity. Qed.

Lemma string_app_empty_l s : "" +:+ s = s.
Proof. reflexivity. Qed.

Lemma string_app_empty_r s : s +:+ "" = s.
Proof.
  induction s as [|a s IH]; [reflexivity|]. rewrite string_app_cons, IH. reflexivity.
Qed.

Lemma string_length_app s t :
  String.length (s +:+ t) = (String.length s + String.length t)%nat.
Proof.
  induction s as [|a s IH]; [reflexivity|].
  rewrite string_app_cons. simpl. rewrite IH. reflexivity.
Qed.

Lemma orElse_nonempty x d : x <> "" -> JS.orElse x d = x.
Proof. intros H. unfold JS.orElse. apply String.eqb_neq in H. rewrite H. reflexivity. Qed.


Lemma lastIndexOf_lower c s : -1 <= JS.lastIndexOf c s.
Proof.
  induction s as [|a s IH]; simpl; [lia|].
  destruct (0 <=? JS.lastIndexOf c s) eqn:E; [lia|].
  destruct (Ascii.eqb a c); lia.
Qed.

Lemma lastIndexOf_upper c s : JS.lastIndexOf c s < Z.of_nat (String.length s).
Proof.
  induction s as [|a s IH]; simpl String.length; simpl JS.lastIndexOf; [lia|].
  destruct (0 <=? JS.lastIndexOf c s) eqn:E; [lia|].
  destruct (Ascii.eqb a c); lia.
Qed.

Lemma lastIndexOf_noSlash s : noSlash s = true -> JS.lastIndexOf "/" s = -1.
Proof.
  unfold noSlash. induction s as [|a s IH]; simpl; [reflexivity|].
  intros [Ha Hs]%andb_prop. rewrite (IH Hs). simpl.
  destruct (Ascii.eqb a "/"); [discriminate|reflexivity].
Qed.

(** The last separator of [p/seg] is the one written, when [seg] has none. *)
Lemma lastIndexOf_app p seg :
  noSlash seg = true ->
  JS.lastIndexOf "/" (p +:+ "/" +:+ seg) = Z.of_nat (String.length p).
Proof.
  intros Hseg. change ("/" +:+ seg) with (String "/" seg). induction p as [|a p IH].
  - rewrite string_app_empty_l. simpl. rewrite (lastIndexOf_noSlash _ Hseg). reflexivity.
  - rewrite string_app_cons. simpl JS.lastIndexOf. rewrite IH.
    assert (H : (0 <=? Z.of_nat (String.length p)) = true) by (apply Z.leb_le; lia).
    rewrite H. simpl String.length. lia.
Qed.

Lemma substring_0_app p r : String.substring 0 (String.length p) (p +:+ r) = p.
Proof.
  induction p as [|a p IH].
  - rewrite string_app_empty_l. simpl. destruct r; reflexivity.
  - rewrite string_app_cons. simpl. rewrite IH. reflexivity.
Qed.

Lemma substring_all r : String.substring 0 (String.length r) r = r.
Proof. rewrite <- (string_app_empty_r r) at 2. rewrite substring_0_app. reflexivity. Qed.

Lemma substring_skip_app p r :
  String.substring (String.length p) (String.length r) (p +:+ r) = r.
Proof.
  induction p as [|a p IH].
  - rewrite string_app_empty_l. apply substring_all.
  - rewrite string_app_cons. simpl. exact IH.
Qed.

Lemma js_substring_0 s b :
  JS.substring s 0 b =
  String.substring 0 (Z.to_nat (JS.clamp (Z.of_nat (String.length s)) b)) s.
Proof.
  unfold JS.substring, JS.clamp.
  replace (Z.to_nat (Z.min _ _)) with 0%nat by lia.
  f_equal. lia.
Qed.

Lemma js_substring_prefix p r :
  JS.substring (p +:+ r) 0 (Z.of_nat (String.length p)) = p.
Proof.
  unfold JS.substring, JS.clamp. rewrite string_length_app.
  replace (Z.min (Z.max 0 (Z.min 0 _)) _) with 0 by lia.
  replace (Z.to_nat (_ - 0)) with (String.length p) by lia.
  apply substring_0_app.
Qed.

Lemma js_substringFrom_suffix p r :
  JS.substringFrom (p +:+ r) (Z.of_nat (String.length p)) = r.
Proof.
  unfold JS.substringFrom, JS.substring, JS.clamp. rewrite string_length_app.
  replace (Z.to_nat (Z.min _ _)) with (String.length p) by lia.
  replace (Z.to_nat (_ - _)) with (String.length r) by lia.
  apply substring_skip_app.
Qed.

Lemma js_substring_empty s b : b <= 0 -> JS.substring s 0 b = "".
Proof.
  intros Hb. unfold JS.substring, JS.clamp.
  replace (Z.to_nat (Z.min _ _)) with 0%nat by lia.
  replace (Z.to_nat (_ - _)) with 0%nat by lia.
  destruct s; reflexivity.
Qed.

Lemma absolute_cons r : absolute (String "/" r) = true.
Proof. destruct r; reflexivity. Qed.

Lemma absolute_inv p : absolute p = true -> exists r, p = String "/" r.
Proof.
  unfold absolute, JS.startsWith. destruct p as [|a r]; cbn [String.prefix]; [discriminate|].
  destruct (ascii_dec "/" a) as [<-|]; [eauto|discriminate].
Qed.

Lemma endsWithSlash_inv p : endsWithSlash p = true -> exists q, p = q +:+ "/".
Proof.
  induction p as [|a p IH]; [discriminate|].
  destruct p as [|b p].
  - intros H. change (Ascii.eqb a "/" = true) in H. apply Ascii.eqb_eq in H.
    subst a. exists "". reflexivity.
  - intros H. destruct (IH H) as [q Hq]. exists (String a q).
    rewrite string_app_cons, <- Hq. reflexivity.
Qed.

(** ** The path resolver *)

(** The cases of [cdNewPath] on [args[0] || '/']. *)
Lemma cdNewPath_cases (current target : string) :
  let path := cdNewPath current (JS.orElse target "/") in
  (target = "" -> path = "/") /\
  (target = ".." ->
     (forall p seg, current = p +:+ "/" +:+ seg -> noSlash seg = true ->
        path = if String.eqb p "" then "/" else p) /\
     (noSlash current = true -> path = "/")) /\
  (JS.startsWith target "/" = true -> path = target) /\
  (target <> "" -> target <> ".." -> JS.startsWith target "/" = false ->
     path =
       (if String.eqb current "/" then "/" +:+ target else current +:+ "/" +:+ target)
     /\ (current = "/" -> JS.startsWith path "//" = false)).
Proof.
  intros path. subst path. repeat split.
  - intros ->. reflexivity.
  - subst target. intros p seg -> Hseg. unfold cdNewPath. simpl.
    rewrite (lastIndexOf_app p seg Hseg), js_substring_prefix. reflexivity.
  - subst target. intros Hno. unfold cdNewPath. simpl.
    rewrite (lastIndexOf_noSlash _ Hno), js_substring_empty by lia. reflexivity.
  - intros Hs. unfold cdNewPath.
    assert (Hne : target <> "") by (intros ->; discriminate Hs).
    rewrite (orElse_nonempty _ _ Hne).
    destruct (String.eqb target "..") eqn:E.
    + apply String.eqb_eq in E. rewrite E in Hs. discriminate Hs.
    + rewrite Hs. reflexivity.
  - unfold cdNewPath. rewrite (orElse_nonempty _ _ H).
    apply String.eqb_neq in H0. rewrite H0, H1. reflexivity.
  - intros ->. unfold cdNewPath. rewrite (orElse_nonempty _ _ H).
    apply String.eqb_neq in H0. rewrite H0, H1.
    change (JS.startsWith ("/" +:+ target) "//" = false).
    unfold JS.startsWith in *. change ("/" +:+ target) with (String "/" target).
    simpl. exact H1.
Qed.

Lemma absolute_cdNewPath cur t : absolute cur = true -> absolute (cdNewPath cur t) = true.
Proof.
  intros Habs. destruct (absolute_inv _ Habs) as [r ->]. unfold cdNewPath.
  destruct (String.eqb t "..").
  - unfold JS.orElse. rewrite js_substring_0.
    destruct (Z.to_nat _); cbn [String.substring String.eqb];
      [reflexivity|apply absolute_cons].
  - destruct (JS.startsWith t "/") eqn:E; [exact E|].
    destruct (String.eqb _ "/"); apply absolute_cons.
Qed.

(** A path with a trailing slash has the empty leaf name. *)
Lemma endsWithSlash_dirName p : endsWithSlash p = true -> cdDirName p = "".
Proof.
  intros [q ->]%endsWithSlash_inv. unfold cdDirName.
  pose proof (lastIndexOf_app q "" eq_refl) as H.
  change ("/" +:+ "") with "/" in H. rewrite H.
  rewrite <- (string_app_empty_r (q +:+ "/")).
  replace (Z.of_nat (String.length q) + 1) with (Z.of_nat (String.length (q +:+ "/"))).
  - apply js_substringFrom_suffix.
  - rewrite string_length_app. simpl. lia.
Qed.

(** ** The working directory and the cache *)

Lemma namedCache_insert st st' path d :
  namedCache st -> namedListing d ->
  fileSystemCache st' = <[path := d]> (fileSystemCache st) ->
  namedCache st'.
Proof.
  intros Hc Hd Heq p' d' Hl. rewrite Heq in Hl.
  apply lookup_insert_Some in Hl as [[_ <-]|[_ Hl]]; eauto.
Qed.

Lemma namedCache_same st st' :
  namedCache st -> fileSystemCache st' = fileSystemCache st -> namedCache st'.
Proof. intros Hc Heq p' d' Hl. rewrite Heq in Hl. eauto. Qed.

Lemma wellFormed_sameFS st st' : sameFS st st' -> wellFormedState st -> wellFormedState st'.
Proof.
  intros [Hd Hc] [Hp Hn]. split; [rewrite Hd; exact Hp|].
  eapply namedCache_same; eauto.
Qed.

Lemma sameFS_resetAutocompleteState st : sameFS st (resetAutocompleteState st).
Proof. frame. Qed.

Lemma sameFS_receiveSuggestions line span l st :
  sameFS st (receiveSuggestions line span l st).
Proof. unfold receiveSuggestions. frame. Qed.

Lemma sameFS_cycleToNextSuggestion span st : sameFS st (cycleToNextSuggestion span st).
Proof. unfold cycleToNextSuggestion. frame. Qed.

Lemma sameFS_clearScreen st : sameFS st (clearScreen st).
Proof. unfold clearScreen. frame. Qed.

Lemma sameFS_input v st : sameFS st (input v st).
Proof. unfold input. frame. Qed.

Section Interpreter.

Variable fetch : string -> option Json.
Variable atob : string -> option string.

Lemma sameFS_arrowUp span st : sameFS st (arrowUp span st).
Proof. unfold arrowUp, loadHistory. frame. Qed.

Lemma sameFS_arrowDown span st : sameFS st (arrowDown span st).
Proof. unfold arrowDown, loadHistory. frame. Qed.

(** No command touches the history or its cursor. *)
Lemma handleCommand_history line st :
  commandHistory (snd (handleCommand fetch atob line st)) = commandHistory st
  /\ historyIndex (snd (handleCommand fetch atob line st)) = historyIndex st.
Proof.
  unfold_logic. repeat case_match; simplify_eq; simpl; auto.
Qed.

Lemma getDirectoryContents_cwd path st :
  currentDirectory (snd (getDirectoryContents fetch path st)) = currentDirectory st.
Proof.
  unfold getDirectoryContents, fetchDirectory.
  destruct (_ !! _); [reflexivity|]. destruct (fetch _); reflexivity.
Qed.

Lemma getDirectoryContents_terminal path st :
  terminal (snd (getDirectoryContents fetch path st)) = terminal st.
Proof.
  unfold getDirectoryContents, fetchDirectory.
  destruct (_ !! _); [reflexivity|]. destruct (fetch _); reflexivity.
Qed.

Lemma getDirectoryContents_named path st :
  namedRemote fetch -> namedCache st ->
  namedCache (snd (getDirectoryContents fetch path st))
  /\ forall d, fst (getDirectoryContents fetch path st) = Some d -> namedListing d.
Proof.
  intros Hr Hc. unfold getDirectoryContents, fetchDirectory.
  destruct (fileSystemCache st !! path) as [d|] eqn:E; simpl.
  - split; [assumption|]. intros d' [= <-]. eauto.
  - destruct (fetch path) as [d|] eqn:F; simpl.
    + split.
      * eapply namedCache_insert; eauto.
      * intros d' [= <-]. eauto.
    + split; [assumption|discriminate].
Qed.

Lemma handleCommand_namedCache line st :
  namedRemote fetch -> namedCache st ->
  namedCache (snd (handleCommand fetch atob line st)).
Proof.
  intros Hr Hc. unfold_logic.
  repeat case_match; simplify_eq; simpl;
    intros p' d' Hl; simpl in Hl;
    repeat (apply lookup_insert_Some in Hl as [[_ <-]|[_ Hl]]);
    solve [ exact I | eapply Hc; eassumption | eapply Hr; eassumption ].
Qed.

(** Only [cd] assigns [currentDirectory]. *)
Lemma handleCommand_cwd_other line st :
  commandOf line <> CmdCd ->
  currentDirectory (snd (handleCommand fetch atob line st)) = currentDirectory st.
Proof.
  unfold commandOf. intros Hne. unfold_logic.
  repeat case_match; simplify_eq; simpl; auto.
Qed.

Lemma handleCommand_pathInvariant line st :
  namedRemote fetch -> namedCache st -> pathInvariant (currentDirectory st) ->
  pathInvariant (currentDirectory (snd (handleCommand fetch atob line st))).
Proof.
  intros Hr Hc Hp.
  destruct (decide (commandOf line = CmdCd)) as [Hcd|Hne];
    [|rewrite handleCommand_cwd_other; assumption].
  unfold commandOf in Hcd. unfold handleCommand. rewrite Hcd.
  set (newPath := cdNewPath _ _).
  destruct (getDirectoryContents_named (cdParentPath newPath) st Hr Hc) as (_ & Hnamed).
  pose proof (getDirectoryContents_cwd (cdParentPath newPath) st) as Hcwd.
  destruct (getDirectoryContents fetch (cdParentPath newPath) st) as [pc st1].
  simpl in Hcwd, Hnamed.
  assert (Hnew :
            String.eqb newPath "/"
            || match pc with
               | Some (JArray items) =>
                   existsb (fun i => String.eqb (item_name i) (cdDirName newPath) && isDir i)
                     items
               | _ => false
               end = true ->
            pathInvariant newPath).
  { intros Hacc. split.
    - apply absolute_cdNewPath, Hp.
    - intros Hend. apply orb_prop in Hacc as [Hroot|Hdir].
      + apply String.eqb_eq, Hroot.
      + destruct pc as [[its|]|]; try discriminate Hdir.
        apply existsb_exists in Hdir as (i & Hin & Hi).
        apply andb_prop in Hi as [Hname _]. apply String.eqb_eq in Hname.
        rewrite (endsWithSlash_dirName _ Hend) in Hname.
        specialize (Hnamed _ eq_refl). simpl in Hnamed.
        rewrite Forall_forall in Hnamed. exfalso.
        apply (Hnamed i); [apply list_elem_of_In, Hin|exact Hname]. }
  destruct pc as [[items|ty c]|]; simpl.
  - destruct (_ || _) eqn:Hacc; simpl; [|rewrite Hcwd; exact Hp].
    apply Hnew; reflexivity.
  - rewrite Hcwd. exact Hp.
  - destruct (_ || _) eqn:Hacc; simpl; [|rewrite Hcwd; exact Hp].
    apply Hnew; reflexivity.
Qed.

Section Reachable.

Hypothesis Hremote : namedRemote fetch.

Lemma wellFormed_handleCommand line st :
  wellFormedState st -> wellFormedState (snd (handleCommand fetch atob line st)).
Proof.
  intros [Hp Hn]. split.
  - apply handleCommand_pathInvariant; assumption.
  - apply handleCommand_namedCache; assumption.
Qed.

Lemma wellFormed_fetchDirectory path st :
  wellFormedState st -> wellFormedState (snd (fetchDirectory fetch path st)).
Proof.
  intros [Hp Hn]. unfold fetchDirectory. destruct (fetch path) as [d|] eqn:F; simpl.
  - split; [exact Hp|]. eapply namedCache_insert; eauto.
  - split; assumption.
Qed.

Lemma wellFormed_getAutocompleteSuggestions line st :
  wellFormedState st -> wellFormedState (snd (getAutocompleteSuggestions fetch line st)).
Proof.
  intros HI. unfold getAutocompleteSuggestions, getFileCompletions, getDirectoryCompletions,
    getDirectoryContents.
  repeat case_match; simplify_eq; simpl; try exact HI;
    match goal with
    | H : fetchDirectory _ ?p ?s = (?o, ?s') |- wellFormedState ?s' =>
        change s' with (snd (o, s')); rewrite <- H; apply wellFormed_fetchDirectory, HI
    end.
Qed.

Lemma wellFormed_startNewAutocompleteSession line span st :
  wellFormedState st -> wellFormedState (startNewAutocompleteSession fetch line span st).
Proof.
  intros HI. unfold startNewAutocompleteSession.
  destruct (suspendsOnFetch _ _ _); [exact HI|].
  pose proof (wellFormed_getAutocompleteSuggestions line st HI) as H.
  destruct (getAutocompleteSuggestions fetch line st) as [[l|] st1]; simpl in H; [|exact H].
  eapply wellFormed_sameFS; [apply sameFS_receiveSuggestions|exact H].
Qed.

Lemma wellFormed_resumeAutocomplete rq st :
  wellFormedState st -> wellFormedState (resumeAutocomplete fetch rq st).
Proof.
  intros HI. unfold resumeAutocomplete.
  pose proof (wellFormed_fetchDirectory (rq_path rq) st HI) as H.
  destruct (fetchDirectory fetch (rq_path rq) st) as [c st1]; simpl in H.
  destruct (requestSuggestions rq c st1); [|exact H].
  eapply wellFormed_sameFS; [apply sameFS_receiveSuggestions|exact H].
Qed.

Lemma wellFormed_enter span st :
  wellFormedState st -> wellFormedState (enter fetch atob span st).
Proof.
  intros HI. unfold enter.
  assert (H1 : wellFormedState (resetAutocompleteState st))
    by (eapply wellFormed_sameFS; [apply sameFS_resetAutocompleteState|exact HI]).
  destruct (String.eqb _ ""); [exact H1|].
  set (st2 := set_history _ _ _).
  assert (H2 : wellFormedState st2) by exact H1.
  destruct (String.eqb _ "clear").
  - pose proof (wellFormed_handleCommand
                  (JS.trim (hiddenInput (resetAutocompleteState st))) st2 H2) as H.
    destruct (handleCommand _ _ _ st2) as [[o|] st3]; simpl in H; [|exact H].
    destruct (clear o); exact H.
  - destruct span as [id|]; [|exact H2].
    set (st3 := set_terminal _ st2).
    assert (H3 : wellFormedState st3) by exact H2.
    pose proof (wellFormed_handleCommand
                  (JS.trim (hiddenInput (resetAutocompleteState st))) st3 H3) as H.
    destruct (handleCommand _ _ _ st3) as [[o|] st4]; simpl in H.
    + destruct (clear o); exact H.
    + exact H.
Qed.

Lemma wellFormed_keydown ctrl key st :
  wellFormedState st -> wellFormedState (keydown fetch atob ctrl key st).
Proof.
  intros HI. unfold keydown.
  destruct (ctrl && String.eqb (JS.toLowerCase key) "u").
  - destruct (String.eqb _ ""); [exact HI|].
    destruct (_ && _).
    + eapply wellFormed_sameFS; [apply sameFS_cycleToNextSuggestion|exact HI].
    + apply wellFormed_startNewAutocompleteSession, HI.
  - assert (H1 : wellFormedState (resetAutocompleteState st))
      by (eapply wellFormed_sameFS; [apply sameFS_resetAutocompleteState|exact HI]).
    destruct (ctrl && _).
    + eapply wellFormed_sameFS; [apply sameFS_clearScreen|exact H1].
    + match goal with |- wellFormedState (if _ then enter _ _ _ ?s else ?s) =>
        assert (H2 : wellFormedState s) end.
      { destruct (String.eqb key "ArrowUp");
          [eapply wellFormed_sameFS; [apply sameFS_arrowUp|exact H1]|].
        destruct (String.eqb key "ArrowDown");
          [eapply wellFormed_sameFS; [apply sameFS_arrowDown|exact H1]|exact H1]. }
      destruct (String.eqb key "Enter"); [apply wellFormed_enter, H2|exact H2].
Qed.

Lemma wellFormed_step e st : wellFormedState st -> wellFormedState (step fetch atob e st).
Proof.
  intros HI. destruct e as [v|ctrl key|n]; simpl.
  - eapply wellFormed_sameFS; [apply sameFS_input|exact HI].
  - apply wellFormed_keydown, HI.
  - destruct (pending st !! n); [|exact HI]. apply wellFormed_resumeAutocomplete. exact HI.
Qed.

Lemma wellFormed_run events st :
  wellFormedState st -> wellFormedState (run fetch atob events st).
Proof.
  unfold run. revert st.
  induction events as [|e events IH]; intros st HI; simpl; [exact HI|].
  apply IH, wellFormed_step, HI.
Qed.

End Reachable.

Lemma wellFormed_startup saved : wellFormedState (startup saved).
Proof.
  split.
  - split; [reflexivity|intros _; reflexivity].
  - intros path d Hl. unfold startup, resetTerminal in Hl. simpl in Hl.
    rewrite lookup_empty in Hl. discriminate.
Qed.

(** C6, as the code has it.  Provided the listings of the content provider
    name their entries, every command execution preserves: the working
    directory is absolute and carries no trailing slash unless it is the
    root (together with the cache holding only such listings); and so it is
    in every state the page reaches from its start, whatever is typed,
    submitted or answered.  Normalization is not part of the invariant. *)
Theorem working_directory_invariant :
  namedRemote fetch ->
  (forall line st,
     namedCache st -> pathInvariant (currentDirectory st) ->
     pathInvariant (currentDirectory (snd (handleCommand fetch atob line st)))
     /\ namedCache (snd (handleCommand fetch atob line st))) /\
  (forall saved events,
     pathInvariant (currentDirectory (run fetch atob events (startup saved)))).
Proof.
  intros Hr. split.
  - intros line st Hc Hp. apply (wellFormed_handleCommand Hr line st). split; assumption.
  - intros saved events.
    apply (wellFormed_run Hr events (startup saved)), wellFormed_startup.
Qed.

End Interpreter.

(** ** History navigation *)

Section History.

Variable fetch : string -> option Json.
Variable atob : string -> option string.

Lemma enter_history span st :
  JS.trim (hiddenInput st) <> "" ->
  commandHistory (enter fetch atob span st) = commandHistory st ++ [JS.trim (hiddenInput st)]
  /\ historyIndex (enter fetch atob span st) = -1.
Proof.
  intros Hne. unfold enter.
  change (hiddenInput (resetAutocompleteState st)) with (hiddenInput st).
  apply String.eqb_neq in Hne. rewrite Hne.
  set (st2 := set_history _ _ _).
  destruct (String.eqb _ "clear").
  - destruct (handleCommand_history fetch atob (JS.trim (hiddenInput st)) st2) as [H1 H2].
    destruct (handleCommand _ _ _ st2) as [[o|] st3]; simpl in H1, H2;
      [destruct (clear o)|]; split; assumption.
  - destruct span as [id|]; [|split; reflexivity].
    set (st3 := set_terminal _ st2).
    destruct (handleCommand_history fetch atob (JS.trim (hiddenInput st)) st3) as [H1 H2].
    destruct (handleCommand _ _ _ st3) as [[o|] st4]; simpl in H1, H2;
      [destruct (clear o)|]; split; assumption.
Qed.

Lemma keydown_plain key st :
  keydown fetch atob false key st =
  let span := userInputSpan (terminal st) in
  let st1 := resetAutocompleteState st in
  let st2 :=
    if String.eqb key "ArrowUp" then arrowUp span st1
    else if String.eqb key "ArrowDown" then arrowDown span st1
    else st1 in
  if String.eqb key "Enter" then enter fetch atob span st2 else st2.
Proof. unfold keydown. cbn [andb]. reflexivity. Qed.

Lemma submit_history line st :
  JS.trim line <> "" ->
  commandHistory (submit fetch atob line st) = commandHistory st ++ [JS.trim line]
  /\ historyIndex (submit fetch atob line st) = -1.
Proof.
  intros Hne. unfold submit.
  rewrite keydown_plain.
  change (String.eqb "Enter" "ArrowUp") with false.
  change (String.eqb "Enter" "ArrowDown") with false.
  change (String.eqb "Enter" "Enter") with true. cbv zeta iota.
  apply enter_history. exact Hne.
Qed.

Lemma fold_left_nil_eq {A B : Type} (f : A -> B -> A) (x : A) : fold_left f [] x = x.
Proof. reflexivity. Qed.

Lemma fold_left_cons_eq {A B : Type} (f : A -> B -> A) (b : B) (l : list B) (x : A) :
  fold_left f (b :: l) x = fold_left f l (f x b).
Proof. reflexivity. Qed.

Lemma submits_history lines st :
  Forall (fun l => JS.trim l <> "") lines ->
  commandHistory (fold_left (fun s l => submit fetch atob l s) lines st)
  = commandHistory st ++ map JS.trim lines
  /\ (lines <> [] ->
      historyIndex (fold_left (fun s l => submit fetch atob l s) lines st) = -1).
Proof.
  revert st. induction lines as [|l lines IH]; intros st Hall.
  - rewrite fold_left_nil_eq, app_nil_r. split; [reflexivity|congruence].
  - apply Forall_cons in Hall as [Hl Hall]. rewrite fold_left_cons_eq, map_cons.
    destruct (submit_history l st Hl) as [H1 H2].
    destruct (IH (submit fetch atob l st) Hall) as [H3 H4].
    split.
    + rewrite H3, H1, <- app_assoc. reflexivity.
    + intros _. destruct (decide (lines = [])) as [->|Hne].
      * rewrite fold_left_nil_eq. exact H2.
      * apply H4, Hne.
Qed.

Lemma arrayGet_nat (l : list string) (n : nat) : arrayGet l (Z.of_nat n) = l !! n.
Proof.
  unfold arrayGet. destruct (Z.ltb_spec (Z.of_nat n) 0); [lia|].
  rewrite Nat2Z.id. reflexivity.
Qed.

Lemma arrowUp_spec span s :
  let len := Z.of_nat (length (commandHistory s)) in
  commandHistory (arrowUp span s) = commandHistory s /\
  (historyIndex s < len - 1 -> -1 <= historyIndex s ->
     historyIndex (arrowUp span s) = historyIndex s + 1 /\
     hiddenInput (arrowUp span s)
     = display (commandHistory s !! Z.to_nat (len - 2 - historyIndex s))) /\
  (len - 1 <= historyIndex s -> arrowUp span s = s).
Proof.
  intros len. unfold arrowUp. fold len.
  destruct (Z.ltb_spec 0 len); destruct (Z.ltb_spec (historyIndex s) (len - 1));
    cbn [andb]; (split; [reflexivity|split]); try (intros; lia); try (intros; reflexivity).
  intros H1 H2. split; [reflexivity|].
  unfold loadHistory. cbn [hiddenInput set_terminal set_hiddenInput]. fold len.
  replace (len - 1 - (historyIndex s + 1)) with (Z.of_nat (Z.to_nat (len - 2 - historyIndex s)))
    by lia.
  rewrite arrayGet_nat. reflexivity.
Qed.

Lemma arrowDown_spec span s :
  let len := Z.of_nat (length (commandHistory s)) in
  commandHistory (arrowDown span s) = commandHistory s /\
  (0 < historyIndex s ->
     historyIndex (arrowDown span s) = historyIndex s - 1 /\
     hiddenInput (arrowDown span s)
     = display (arrayGet (commandHistory s) (len - historyIndex s))) /\
  (historyIndex s = 0 ->
     historyIndex (arrowDown span s) = -1 /\ hiddenInput (arrowDown span s) = "").
Proof.
  intros len. unfold arrowDown.
  destruct (Z.ltb_spec 0 (historyIndex s)); [|destruct (Z.eqb_spec (historyIndex s) 0)];
    (split; [reflexivity|split]); try (intros; lia); try (intros; split; reflexivity).
  intros H1. split; [reflexivity|].
  unfold loadHistory. cbn [hiddenInput set_terminal set_hiddenInput]. fold len.
  replace (len - 1 - (historyIndex s - 1)) with (len - historyIndex s) by lia.
  reflexivity.
Qed.

Lemma pressUp_eq st :
  pressUp fetch atob st
  = arrowUp (userInputSpan (terminal st)) (resetAutocompleteState st).
Proof.
  unfold pressUp. rewrite keydown_plain.
  change (String.eqb "ArrowUp" "ArrowUp") with true.
  change (String.eqb "ArrowUp" "Enter") with false. reflexivity.
Qed.

Lemma pressDown_eq st :
  pressDown fetch atob st
  = arrowDown (userInputSpan (terminal st)) (resetAutocompleteState st).
Proof.
  unfold pressDown. rewrite keydown_plain.
  change (String.eqb "ArrowDown" "ArrowUp") with false.
  change (String.eqb "ArrowDown" "ArrowDown") with true.
  change (String.eqb "ArrowDown" "Enter") with false. reflexivity.
Qed.

Lemma pressUp_iter k st :
  historyIndex st = -1 ->
  let h := commandHistory st in
  (k <= length h)%nat ->
  commandHistory (Nat.iter k (pressUp fetch atob) st) = h
  /\ historyIndex (Nat.iter k (pressUp fetch atob) st) = Z.of_nat k - 1
  /\ ((1 <= k)%nat ->
      hiddenInput (Nat.iter k (pressUp fetch atob) st) = display (h !! (length h - k)%nat)).
Proof.
  intros Hidx h. induction k as [|k IH]; intros Hk.
  - change (Nat.iter 0 (pressUp fetch atob) st) with st.
    split; [reflexivity|split; [rewrite Hidx; reflexivity|intros; lia]].
  - destruct IH as (IH1 & IH2 & _); [lia|].
    rewrite Nat.iter_succ, pressUp_eq.
    set (s := resetAutocompleteState (Nat.iter k (pressUp fetch atob) st)).
    set (span := userInputSpan _).
    assert (Hs1 : commandHistory s = h) by exact IH1.
    assert (Hs2 : historyIndex s = Z.of_nat k - 1) by exact IH2.
    destruct (arrowUp_spec span s) as (A1 & A2 & _).
    rewrite Hs1, Hs2 in A2. fold h in A2.
    destruct A2 as [A2 A3]; [lia|lia|].
    repeat split.
    + rewrite A1. exact Hs1.
    + rewrite A2. lia.
    + intros _. rewrite A3. do 2 f_equal. lia.
Qed.

Lemma pressUp_stops k st :
  historyIndex st = Z.of_nat (length (commandHistory st)) - 1 ->
  commandHistory (Nat.iter k (pressUp fetch atob) st) = commandHistory st
  /\ historyIndex (Nat.iter k (pressUp fetch atob) st) = historyIndex st.
Proof.
  intros Hidx. induction k as [|k [IH1 IH2]]; [split; reflexivity|].
  rewrite Nat.iter_succ, pressUp_eq.
  set (s := resetAutocompleteState (Nat.iter k (pressUp fetch atob) st)).
  set (span := userInputSpan _).
  assert (Hs1 : commandHistory s = commandHistory st) by exact IH1.
  assert (Hs2 : historyIndex s = historyIndex st) by exact IH2.
  destruct (arrowUp_spec span s) as (_ & _ & A).
  rewrite A; [split; assumption|]. rewrite Hs1, Hs2. lia.
Qed.

Lemma pressDown_iter k st :
  let h := commandHistory st in
  (Z.of_nat k <= historyIndex st) ->
  commandHistory (Nat.iter k (pressDown fetch atob) st) = h
  /\ historyIndex (Nat.iter k (pressDown fetch atob) st) = historyIndex st - Z.of_nat k
  /\ ((1 <= k)%nat ->
      hiddenInput (Nat.iter k (pressDown fetch atob) st)
      = display (arrayGet h (Z.of_nat (length h) - 1 - (historyIndex st - Z.of_nat k)))).
Proof.
  intros h. induction k as [|k IH]; intros Hk.
  - change (Nat.iter 0 (pressDown fetch atob) st) with st.
    split; [reflexivity|split; [lia|intros; lia]].
  - destruct IH as (IH1 & IH2 & _); [lia|].
    rewrite Nat.iter_succ, pressDown_eq.
    set (s := resetAutocompleteState (Nat.iter k (pressDown fetch atob) st)).
    set (span := userInputSpan _).
    assert (Hs1 : commandHistory s = h) by exact IH1.
    assert (Hs2 : historyIndex s = historyIndex st - Z.of_nat k) by exact IH2.
    destruct (arrowDown_spec span s) as (A1 & A2 & _).
    rewrite Hs1, Hs2 in A2. fold h in A2.
    destruct A2 as [A2 A3]; [lia|].
    repeat split.
    + rewrite A1. exact Hs1.
    + rewrite A2. lia.
    + intros _. rewrite A3. do 2 f_equal. lia.
Qed.

Lemma pressDown_last st :
  historyIndex st = 0 ->
  historyIndex (pressDown fetch atob st) = -1 /\ hiddenInput (pressDown fetch atob st) = "".
Proof.
  intros H. rewrite pressDown_eq.
  destruct (arrowDown_spec (userInputSpan (terminal st)) (resetAutocompleteState st))
    as (_ & _ & A).
  apply A. exact H.
Qed.

Lemma lookup_map_trim (lines : list string) (i : nat) :
  (i < length lines)%nat -> map JS.trim lines !! i = Some (JS.trim (nth i lines "")).
Proof.
  revert i. induction lines as [|l lines IH]; intros i Hi; [simpl in Hi; lia|].
  destruct i as [|i]; [reflexivity|]. simpl in Hi. apply IH. lia.
Qed.

(** After N >= 1 submissions of non-blank lines of ASCII characters, the k-th
    press of
    history-previous (k = 1..N) moves the cursor to k-1 and loads the k-th
    newest line; with no older history, further presses stay at the oldest
    entry; then the k-th press of history-next (k < N) moves the cursor back
    and loads the next newer line, and the N-th returns the cursor to live
    (-1) and empties the input buffer. *)
Theorem history_round_trip (lines : list string) (st : State) :
  lines <> [] ->
  Forall (fun l => asciiText l = true) lines ->
  Forall (fun l => JS.trim l <> "") lines ->
  let N := length lines in
  let st1 := fold_left (fun s l => submit fetch atob l s) lines st in
  let ups k := Nat.iter k (pressUp fetch atob) st1 in
  let downs k := Nat.iter k (pressDown fetch atob) (ups N) in
  (forall k, (1 <= k <= N)%nat ->
     historyIndex (ups k) = Z.of_nat k - 1 /\
     hiddenInput (ups k) = JS.trim (nth (N - k) lines "")) /\
  (commandHistory st = [] ->
   forall k, (N <= k)%nat -> historyIndex (ups k) = Z.of_nat N - 1) /\
  (forall k, (1 <= k < N)%nat ->
     historyIndex (downs k) = Z.of_nat (N - k) - 1 /\
     hiddenInput (downs k) = JS.trim (nth k lines "")) /\
  historyIndex (downs N) = -1 /\ hiddenInput (downs N) = "".
Proof.
  intros Hne _ Hall N st1 ups downs.
  destruct (submits_history lines st Hall) as [Hh Hi]. specialize (Hi Hne).
  fold st1 in Hh, Hi.
  assert (HN : (1 <= N)%nat)
    by (unfold N; clear -Hne; destruct lines; [congruence|cbn [length]; lia]).
  assert (Hlen : length (commandHistory st1) = (length (commandHistory st) + N)%nat).
  { rewrite Hh, length_app, length_map. reflexivity. }
  assert (Hups : forall k, (k <= N)%nat ->
            commandHistory (ups k) = commandHistory st1 /\
            historyIndex (ups k) = Z.of_nat k - 1 /\
            ((1 <= k)%nat -> hiddenInput (ups k) = JS.trim (nth (N - k) lines ""))).
  { intros k Hk. destruct (pressUp_iter k st1 Hi) as (U1 & U2 & U3); [lia|].
    split; [exact U1|split; [exact U2|]]. intros Hk1. unfold ups. rewrite (U3 Hk1).
    rewrite Hlen, Hh, lookup_app_r by lia.
    replace (length (commandHistory st) + N - k - length (commandHistory st))%nat
      with (N - k)%nat by lia.
    rewrite lookup_map_trim by lia. reflexivity. }
  destruct (Hups N) as (UN1 & UN2 & _); [lia|].
  assert (Hdowns : forall k, (k < N)%nat ->
            commandHistory (downs k) = commandHistory st1 /\
            historyIndex (downs k) = Z.of_nat (N - k) - 1 /\
            ((1 <= k)%nat -> hiddenInput (downs k) = JS.trim (nth k lines ""))).
  { intros k Hk. destruct (pressDown_iter k (ups N)) as (D1 & D2 & D3); [lia|].
    rewrite UN1 in D1, D3. rewrite UN2 in D2, D3.
    split; [exact D1|split; [unfold downs; lia|]]. intros Hk1. unfold downs.
    rewrite (D3 Hk1), Hlen.
    replace (Z.of_nat (length (commandHistory st) + N) - 1 - (Z.of_nat N - 1 - Z.of_nat k))
      with (Z.of_nat (length (commandHistory st) + k)) by lia.
    rewrite arrayGet_nat, Hh, lookup_app_r by lia.
    replace (length (commandHistory st) + k - length (commandHistory st))%nat with k by lia.
    rewrite lookup_map_trim by lia. reflexivity. }
  split; [|split; [|split]].
  - intros k Hk. destruct (Hups k) as (_ & U2 & U3); [lia|]. split; [exact U2|apply U3; lia].
  - intros Hempty k Hk. unfold ups.
    replace k with ((k - N) + N)%nat by lia. rewrite Nat.iter_add.
    destruct (pressUp_stops (k - N) (ups N)) as [_ S2].
    + rewrite UN1, UN2, Hlen, Hempty. simpl length. lia.
    + fold (ups N). rewrite S2. exact UN2.
  - intros k Hk. destruct (Hdowns k) as (_ & D2 & D3); [lia|]. split; [exact D2|apply D3; lia].
  - destruct (Hdowns (N - 1)%nat) as (_ & D2 & _); [lia|].
    assert (Hd : downs N = pressDown fetch atob (downs (N - 1)%nat)).
    { unfold downs. rewrite <- Nat.iter_succ. f_equal. lia. }
    rewrite Hd. apply pressDown_last. rewrite D2. lia.
Qed.

End History.
(** ** The commands and the suggest operation *)

Section Commands.

Variable fetch : string -> option Json.
Variable atob : string -> option string.

(** C1, as the code has it.  A line whose command is [clear] makes
    [handleCommand] return the outcome with the flag [clear] set and replace
    the terminal's children by one fresh prompt that shows the current
    directory; working directory, cache, history and history cursor are left
    as they were.  Submitting the line [clear] with Enter appends it to the
    history, puts the cursor at live (-1), empties the input field and keeps
    working directory and cache. *)
Theorem clear_keeps_session (st : State) :
  (forall input, commandOf input = CmdClear ->
     let r := handleCommand fetch atob input st in
     fst r = Normal {| clear := true; outcome_currentDirectory := None |} /\
     terminal (snd r) = [Prompt (promptCount st) (dirDisplay (currentDirectory st)) ""] /\
     currentDirectory (snd r) = currentDirectory st /\
     fileSystemCache (snd r) = fileSystemCache st /\
     commandHistory (snd r) = commandHistory st /\
     historyIndex (snd r) = historyIndex st) /\
  (let st' := submit fetch atob "clear" st in
   terminal st' = [Prompt (promptCount st) (dirDisplay (currentDirectory st)) ""] /\
   hiddenInput st' = "" /\
   currentDirectory st' = currentDirectory st /\
   fileSystemCache st' = fileSystemCache st /\
   commandHistory st' = commandHistory st ++ ["clear"] /\
   historyIndex st' = -1).
Proof.
  split.
  - intros input Hc. unfold commandOf in Hc. unfold handleCommand. rewrite Hc.
    repeat split.
  - repeat split.
Qed.

(** C2, as the code has it.  For every line, an outcome that
    [handleCommand] returns is [{ clear: true }] without a working directory
    when the command is [clear], and otherwise [{ clear: false,
    currentDirectory }] with the working directory in effect after the
    execution; only [ls], [cat], [cd] and [themes] can raise instead of
    returning. *)
Theorem outcome_records (input : string) (st : State) :
  match handleCommand fetch atob input st with
  | (Normal o, st') =>
      match commandOf input with
      | CmdClear => o = {| clear := true; outcome_currentDirectory := None |}
      | _ => o = {| clear := false;
                    outcome_currentDirectory := Some (currentDirectory st') |}
      end
  | (Thrown, _) => In (commandOf input) [CmdLs; CmdCat; CmdCd; CmdThemes]
  end.
Proof.
  unfold commandOf. unfold_logic.
  destruct (classify _); repeat case_match; simplify_eq; simpl; auto.
Qed.

Lemma applyCompletion_value span completion s :
  hiddenInput (applyCompletion span completion s) =
  (if Nat.eqb (length (JS.split " " (JS.trim (hiddenInput s)))) 1 then completion +:+ " "
   else JS.join " " (removelast (JS.split " " (JS.trim (hiddenInput s))) ++ [completion])
        +:+ " ").
Proof. reflexivity. Qed.

Lemma showCompletionOptions_frame span l i s :
  hiddenInput (showCompletionOptions span l i s) = hiddenInput s /\
  autocompleteSuggestions (showCompletionOptions span l i s) = autocompleteSuggestions s /\
  autocompleteIndex (showCompletionOptions span l i s) = autocompleteIndex s /\
  autocompleteBaseInput (showCompletionOptions span l i s) = autocompleteBaseInput s.
Proof. unfold showCompletionOptions. destruct span; repeat split. Qed.

(** C4, as the code has it.  [getFileContent] returns the decoded content of
    a cached object that has content, or the text [Error: Could not decode
    file content.] as content when that cached content does not decode;
    without such a cache entry it fetches, and returns the one value [null]
    when the fetch fails, when the object is a listing, is not of type
    [file] or has no content, and when the content does not decode (the
    object is cached before decoding); otherwise it caches the object and
    returns the decoded text. *)
Theorem getFileContent_spec (path : string) (st : State) :
  let r := getFileContent fetch atob path st in
  (forall content text,
     cachedContent path st = Some content -> atob content = Some text ->
     r = (Some text, st)) /\
  (forall content,
     cachedContent path st = Some content -> atob content = None ->
     r = (Some "Error: Could not decode file content.", st)) /\
  (cachedContent path st = None ->
     (fetch path = None -> r = (None, st)) /\
     (forall items, fetch path = Some (JArray items) -> r = (None, st)) /\
     (forall type content,
        fetch path = Some (JObject type content) ->
        type <> Some "file" \/ JS.truthy content = None ->
        r = (None, st)) /\
     (forall content c,
        fetch path = Some (JObject (Some "file") content) ->
        JS.truthy content = Some c ->
        let st' :=
          set_fileSystemCache
            (<[path := JObject (Some "file") content]> (fileSystemCache st)) st in
        (forall text, atob c = Some text -> r = (Some text, st')) /\
        (atob c = None -> r = (None, st')))).
Proof.
  intros r. subst r. unfold getFileContent. split; [|split].
  - intros content text -> ->. reflexivity.
  - intros content -> ->. reflexivity.
  - intros ->. split; [|split; [|split]].
    + intros ->. reflexivity.
    + intros items ->. reflexivity.
    + intros type content -> [Hty|Hc].
      * destruct type as [ty|]; [|reflexivity].
        destruct (String.eqb_spec ty "file") as [->|]; [congruence|reflexivity].
      * destruct type as [ty|]; [|reflexivity]. rewrite Hc.
        destruct (String.eqb ty "file"); reflexivity.
    + intros content c -> Hc. rewrite Hc. cbn [String.eqb Ascii.eqb Bool.eqb].
      split; [intros text ->|intros ->]; reflexivity.
Qed.


(** Whenever the contents of the parent are unavailable or are a listing, a
    candidate that is not the root and has no directory entry of its leaf
    name is refused with the error line, and the working directory stays. *)
Lemma cd_rejected (input : string) (st : State) :
  commandOf input = CmdCd ->
  let targetDir := cdTarget (tl (JS.split " " (JS.trim input))) in
  let newPath := cdNewPath (currentDirectory st) targetDir in
  let parentContents := fst (getDirectoryContents fetch (cdParentPath newPath) st) in
  newPath <> "/" ->
  (parentContents = None \/
   exists items, parentContents = Some (JArray items) /\
     forall i, In i items ->
       ~ (item_name i = cdDirName newPath /\ item_type i = "dir")) ->
  let r := handleCommand fetch atob input st in
  fst r = Normal {| clear := false;
                    outcome_currentDirectory := Some (currentDirectory st) |} /\
  terminal (snd r) = terminal st ++ [Line ("cd: no such file or directory: " +:+ targetDir)] /\
  currentDirectory (snd r) = currentDirectory st.
Proof.
  intros Hcd targetDir newPath parentContents Hroot Hlist r. subst r.
  unfold commandOf in Hcd. unfold handleCommand. rewrite Hcd.
  fold targetDir. fold newPath. subst parentContents.
  pose proof (getDirectoryContents_cwd fetch (cdParentPath newPath) st) as Hcwd.
  assert (Hterm : terminal (snd (getDirectoryContents fetch (cdParentPath newPath) st))
                  = terminal st).
  { unfold getDirectoryContents, fetchDirectory.
    destruct (_ !! _); [reflexivity|]. destruct (fetch _); reflexivity. }
  destruct (getDirectoryContents fetch (cdParentPath newPath) st) as [pc st1].
  cbn [fst snd] in *.
  apply String.eqb_neq in Hroot. rewrite Hroot. cbn [orb].
  destruct Hlist as [->|(items & -> & Hno)].
  - unfold finish, appendChild. cbn. rewrite Hcwd, Hterm. repeat split.
  - assert (Hex : existsb (fun i => String.eqb (item_name i) (cdDirName newPath) && isDir i)
                    items = false).
    { apply not_true_is_false. intros (i & Hin & Hi)%existsb_exists.
      apply andb_prop in Hi as [Hn Ht]. apply (Hno i Hin).
      split; apply String.eqb_eq; assumption. }
    rewrite Hex. unfold finish, appendChild. cbn. rewrite Hcwd, Hterm. repeat split.
Qed.

(** C10 fails on the code.  [constructor] is not a key of the theme
    registry, yet [themes['constructor']] is the inherited [Object]
    function, which is truthy: [setTheme] returns [true] after setting the
    active theme, the document attribute and the saved selection to
    [constructor], and the [themes] command renders the success line
    [Theme changed to Object! undefined]. *)
Theorem setTheme_accepts_inherited_key (st : State) :
  ~ In "constructor" ThemeManager.keys /\
  ThemeManager.setTheme "constructor" st
  = (true, set_theme "constructor" (Some "constructor") (Some "constructor") st) /\
  handleCommand fetch atob "themes constructor" st
  = (Normal {| clear := false; outcome_currentDirectory := Some (currentDirectory st) |},
     appendChild (ThemeChanged "Object" "undefined")
       (set_theme "constructor" (Some "constructor") (Some "constructor") st)).
Proof.
  split; [|split; reflexivity].
  intros H. cbn in H. intuition discriminate.
Qed.

(** A name that is neither a theme nor a property of [Object.prototype] is
    refused, and nothing is mutated. *)
Lemma setTheme_unknown (themeName : string) (st : State) :
  ThemeManager.get themeName = None ->
  ThemeManager.setTheme themeName st = (false, st).
Proof. intros H. unfold ThemeManager.setTheme. rewrite H. reflexivity. Qed.

Lemma themes_not_found (line themeArg : string) (st : State) :
  commandOf line = CmdThemes ->
  JS.truthy (head (tl (JS.split " " (JS.trim line)))) = Some themeArg ->
  ThemeManager.get themeArg = None ->
  handleCommand fetch atob line st
  = (Normal {| clear := false; outcome_currentDirectory := Some (currentDirectory st) |},
     appendChild (ThemeNotFound themeArg) st).
Proof.
  intros Hc Harg Hget. unfold commandOf in Hc. unfold handleCommand.
  rewrite Hc, Harg, (setTheme_unknown _ _ Hget). reflexivity.
Qed.

End Commands.
(** ** The sample repository: instances and counterexamples *)

Lemma sampleRemote_named : namedRemote sampleRemote.
Proof.
  intros path d H. unfold sampleRemote in H.
  repeat case_match; simplify_eq; simpl; repeat constructor; discriminate.
Qed.

(** C1 at a concrete line: [Clear] in any case is the clear command, and it
    returns the flagged outcome. *)
Lemma clear_keeps_session_witness :
  commandOf "Clear" = CmdClear /\
  fst (handleCommand sampleRemote Base64.atob "Clear" (startup None))
  = Normal {| clear := true; outcome_currentDirectory := None |}.
Proof.
  split; [reflexivity|].
  exact (proj1 (proj1 (clear_keeps_session sampleRemote Base64.atob (startup None))
                  "Clear" eq_refl)).
Defined.

(** C1 as stated fails: after [cd js], submitting [clear] leaves the working
    directory at [/js], the history holding both lines and the cache holding
    the listing of the root. *)
Lemma clear_keeps_session_counterexample :
  let st := sampleSubmit "cd js" (startup None) in
  let st' := sampleSubmit "clear" st in
  currentDirectory st' = "/js" /\
  commandHistory st' = ["cd js"; "clear"] /\
  fileSystemCache st' !! "/" = Some (JArray sampleRoot) /\
  ~ fullyReset st'.
Proof.
  repeat split; try (vm_compute; reflexivity).
  intros (H & _). vm_compute in H. discriminate H.
Qed.

(** C2 as stated fails: the outcome of [clear] records no working
    directory. *)
Lemma outcome_records_counterexample :
  exists o,
    handleCommand sampleRemote Base64.atob "clear" (sampleSubmit "cd js" (startup None))
    = (Normal o, snd (handleCommand sampleRemote Base64.atob "clear"
                        (sampleSubmit "cd js" (startup None))))
    /\ clear o = true /\ outcome_currentDirectory o = None.
Proof.
  exists {| clear := true; outcome_currentDirectory := None |}.
  repeat split; vm_compute; reflexivity.
Qed.

(** C3 does not hold of the code: nothing relates the answer to a suggest
    request to what the field holds when it arrives.  Ctrl+U on [cd j] with
    no cached listing suspends on the network.  When the user types [x]
    meanwhile, the answer replaces the last word of [cd jx], the field and
    the prompt then reading [cd js ]; when the user submits the line
    meanwhile, the answer fills the empty field of the next prompt with
    [js ]. *)
Theorem stale_response_overwrites_field :
  let typed :=
    sampleRun [Input "cd j"; KeyDown true "u"; KeyDown false "x"; Input "cd jx"]
      (startup None) in
  let answered := sampleRun [Response 0%nat] typed in
  let submitted :=
    sampleRun [Input "cd j"; KeyDown true "u"; KeyDown false "Enter"] (startup None) in
  let late := sampleRun [Response 0%nat] submitted in
  pending typed = [sampleRequest] /\
  hiddenInput typed = "cd jx" /\
  terminal typed = [WelcomeMessage; Prompt 0 "~" "cd jx"] /\
  hiddenInput answered = "cd js " /\
  terminal answered = [WelcomeMessage; Prompt 0 "~" "cd js "] /\
  pending submitted = [sampleRequest] /\
  commandHistory submitted = ["cd j"] /\
  hiddenInput submitted = "" /\
  hiddenInput late = "js ".
Proof. repeat split; vm_compute; reflexivity. Qed.

(** C4 at a concrete path: a file that is not cached is fetched, decoded and
    returned. *)
Lemma getFileContent_spec_witness :
  fst (getFileContent sampleRemote Base64.atob "/README.md" (startup None)) = Some "# hi".
Proof.
  destruct (getFileContent_spec sampleRemote Base64.atob "/README.md" (startup None))
    as (_ & _ & H).
  destruct (H eq_refl) as (_ & _ & _ & H4).
  destruct (H4 (Some "IyBoaQ==") "IyBoaQ==" eq_refl eq_refl) as [H5 _].
  rewrite (H5 "# hi" eq_refl). reflexivity.
Defined.

(** C4 as stated fails: reading a directory, reading a file whose content
    does not decode and reading a missing path all return the same [null];
    and once the undecodable object is cached, reading it returns an error
    text as if it were the content. *)
Lemma getFileContent_counterexample :
  let st := startup None in
  let read := getFileContent sampleRemote Base64.atob in
  (exists items, sampleRemote "/js" = Some (JArray items)) /\
  fst (read "/js" st) = None /\
  sampleRemote "/broken" = Some (JObject (Some "file") (Some "%%%")) /\
  Base64.atob "%%%" = None /\
  fst (read "/broken" st) = None /\
  sampleRemote "/missing" = None /\
  fst (read "/missing" st) = None /\
  fst (read "/broken" (snd (read "/broken" st)))
  = Some "Error: Could not decode file content.".
Proof.
  repeat split; try (vm_compute; reflexivity).
  eexists. vm_compute. reflexivity.
Qed.

(** Why the listings must name their entries: an entry without a name makes
    [cd js/] install a path with a trailing slash. *)
Lemma unnamed_entry_trailing_slash :
  currentDirectory (snd (handleCommand unnamedRemote Base64.atob "cd js/" (startup None)))
  = "/js/".
Proof. vm_compute. reflexivity. Qed.

(** C6 at a concrete run. *)
Lemma working_directory_invariant_witness :
  pathInvariant
    (currentDirectory (sampleRun [Input "cd js"; KeyDown false "Enter"] (startup None))).
Proof.
  exact (proj2 (working_directory_invariant sampleRemote Base64.atob sampleRemote_named)
           None [Input "cd js"; KeyDown false "Enter"]).
Defined.

(** C6 as stated fails: from the root, [cd //js] is accepted (the parent of
    [//js] is the root, whose listing has the directory [js]) and installs
    [//js], which has an empty segment. *)
Lemma working_directory_counterexample :
  let st := startup None in
  let r := handleCommand sampleRemote Base64.atob "cd //js" st in
  normalizedAbsolutePath (currentDirectory st) = true /\
  fst r = Normal {| clear := false; outcome_currentDirectory := Some "//js" |} /\
  currentDirectory (snd r) = "//js" /\
  normalizedAbsolutePath (currentDirectory (snd r)) = false.
Proof. repeat split; vm_compute; reflexivity. Qed.

(** C7 fails on the code.  In the root, [cd README.md/x] resolves to
    [/README.md/x], which is not the root; the contents of its parent
    [/README.md] are the object of a file, which has no [find]: the call
    raises.  No [no such file or directory] line is rendered; the working
    directory stays, and the Enter handler renders [Error executing
    command.]. *)
Theorem cd_below_file_raises :
  let st := startup None in
  let r := handleCommand sampleRemote Base64.atob "cd README.md/x" st in
  commandOf "cd README.md/x" = CmdCd /\
  cdNewPath (currentDirectory st) "README.md/x" = "/README.md/x" /\
  cdParentPath "/README.md/x" = "/README.md" /\
  fst (getDirectoryContents sampleRemote "/README.md" st)
  = Some (JObject (Some "file") (Some "IyBoaQ==")) /\
  fst r = Thrown /\
  terminal (snd r) = terminal st /\
  currentDirectory (snd r) = "/" /\
  terminal (sampleSubmit "cd README.md/x" st)
  = [WelcomeMessage; CommandEcho "~" "cd README.md/x";
     ErrorLine "Error executing command."; Prompt 1 "~" ""].
Proof. repeat split; vm_compute; reflexivity. Qed.



(** Two submitted lines, two presses of each arrow. *)
Lemma history_round_trip_witness :
  hiddenInput
    (Nat.iter 2 (pressDown sampleRemote Base64.atob)
       (Nat.iter 2 (pressUp sampleRemote Base64.atob)
          (fold_left (fun s l => submit sampleRemote Base64.atob l s) ["ls"; "pwd"]
             (startup None)))) = "".
Proof.
  assert (Hne : ["ls"; "pwd"] <> []) by discriminate.
  assert (Hall : Forall (fun l => JS.trim l <> "") ["ls"; "pwd"])
    by (repeat constructor; vm_compute; discriminate).
  assert (Hascii : Forall (fun l => asciiText l = true) ["ls"; "pwd"])
    by (repeat constructor).
  exact (proj2 (proj2 (proj2 (proj2
           (history_round_trip sampleRemote Base64.atob ["ls"; "pwd"] (startup None)
              Hne Hascii Hall))))).
Defined.

(** C9 does not hold of the code: the buffer that the arrows are to restore
    is not always empty.  Submitting [clear now] runs the [clear] case
    through the general branch of the Enter handler, which returns without
    emptying the field: the page shows one empty prompt while the field still
    holds [clear now], and history-previous followed by history-next leaves
    the field empty, which is not what it held.  The line [clear] itself
    does empty the field. *)
Theorem clear_with_argument_keeps_field :
  let st := sampleSubmit "clear now" (startup None) in
  let up := pressUp sampleRemote Base64.atob st in
  let down := pressDown sampleRemote Base64.atob up in
  commandHistory st = ["clear now"] /\
  terminal st = [Prompt 1 "~" ""] /\
  hiddenInput st = "clear now" /\
  hiddenInput up = "clear now" /\
  hiddenInput down = "" /\
  hiddenInput (sampleSubmit "clear" (startup None)) = "".
Proof. repeat split; vm_compute; reflexivity. Qed.

(** A refused change of directory, at a concrete line. *)
Lemma cd_rejected_witness :
  terminal (snd (handleCommand sampleRemote Base64.atob "cd nowhere" (startup None)))
  = terminal (startup None) ++ [Line "cd: no such file or directory: nowhere"].
Proof.
  refine (proj1 (proj2 (cd_rejected sampleRemote Base64.atob "cd nowhere" (startup None)
                          eq_refl _ _))).
  - vm_compute. discriminate.
  - right. exists sampleRoot. split; [reflexivity|].
    intros i Hin [Hn _]. vm_compute in Hn. simpl in Hin.
    destruct Hin as [<-|[<-|[<-|[<-|[]]]]]; discriminate Hn.
Defined.

(** An unknown theme, at a concrete line. *)
Lemma themes_not_found_witness :
  handleCommand sampleRemote Base64.atob "themes solarized" (startup None)
  = (Normal {| clear := false; outcome_currentDirectory := Some "/" |},
     appendChild (ThemeNotFound "solarized") (startup None)).
Proof.
  exact (themes_not_found sampleRemote Base64.atob "themes solarized" "solarized"
           (startup None) eq_refl eq_refl eq_refl).
Defined.

(** * Further properties *)

(** ** Splitting, joining and trimming *)

Lemma split_nonempty sep s : JS.split sep s <> [].
Proof.
  destruct s as [|a s]; simpl; [discriminate|].
  destruct (Ascii.eqb a sep); [discriminate|].
  destruct (JS.split sep s); discriminate.
Qed.

Lemma join_cons sep x y r : JS.join sep (x :: y :: r) = x +:+ sep +:+ JS.join sep (y :: r).
Proof. reflexivity. Qed.

(** Joining the parts of a line with the separator gives the line back. *)
Lemma join_split s : JS.join " " (JS.split " " s) = s.
Proof.
  induction s as [|a s IH]; [reflexivity|].
  cbn [JS.split]. destruct (Ascii.eqb_spec a " ") as [->|Hne].
  - pose proof (split_nonempty " " s) as Hn.
    destruct (JS.split " " s) as [|h t]; [congruence|].
    rewrite join_cons, IH. reflexivity.
  - pose proof (split_nonempty " " s) as Hn.
    destruct (JS.split " " s) as [|h t]; [congruence|].
    destruct t as [|h' t].
    + simpl in *. rewrite IH. reflexivity.
    + rewrite join_cons in *. rewrite string_app_cons, IH. reflexivity.
Qed.

Lemma split_lacks s : lacks " " s = true -> JS.split " " s = [s].
Proof.
  unfold lacks. induction s as [|a s IH]; [reflexivity|].
  simpl. intros [Ha Hs]%andb_prop. rewrite (IH Hs).
  destruct (Ascii.eqb a " "); [discriminate|reflexivity].
Qed.

Lemma split_app x s :
  lacks " " x = true -> JS.split " " (x +:+ " " +:+ s) = x :: JS.split " " s.
Proof.
  unfold lacks. change (" " +:+ s) with (String " " s).
  induction x as [|a x IH]; [reflexivity|].
  simpl forallb. intros [Ha Hx]%andb_prop. rewrite string_app_cons.
  cbn [JS.split]. rewrite (IH Hx).
  destruct (Ascii.eqb a " "); [discriminate|reflexivity].
Qed.

(** Splitting the joined parts gives the parts back, when no part holds the
    separator. *)
Lemma split_join l :
  l <> [] -> Forall (fun s => lacks " " s = true) l -> JS.split " " (JS.join " " l) = l.
Proof.
  induction l as [|x l IH]; [congruence|]. intros _ Hall.
  apply Forall_cons in Hall as [Hx Hl].
  destruct l as [|y l].
  - apply split_lacks, Hx.
  - rewrite join_cons, (split_app _ _ Hx), IH; [reflexivity|discriminate|exact Hl].
Qed.

Lemma split_parts_lack s : Forall (fun p => lacks " " p = true) (JS.split " " s).
Proof.
  induction s as [|a s IH]; [repeat constructor|].
  cbn [JS.split]. destruct (Ascii.eqb a " ") eqn:E.
  - constructor; [reflexivity|exact IH].
  - pose proof (split_nonempty " " s) as Hn.
    destruct (JS.split " " s) as [|h t]; [congruence|].
    apply Forall_cons in IH as [Hh Ht]. constructor; [|exact Ht].
    unfold lacks in *. simpl. rewrite E, Hh. reflexivity.
Qed.

Lemma trimStart_startsNonWs s : startsNonWs s = true -> JS.trimStart s = s.
Proof.
  destruct s as [|a s]; [discriminate|]. simpl. intros H.
  destruct (JS.isWhiteSpace a); [discriminate|reflexivity].
Qed.

Lemma trimEnd_cons a s : JS.trimEnd s = s -> s <> "" -> JS.trimEnd (String a s) = String a s.
Proof.
  intros H Hne. cbn [JS.trimEnd]. rewrite H. destruct s; [congruence|reflexivity].
Qed.

Lemma trimEnd_app p s : JS.trimEnd s = s -> s <> "" -> JS.trimEnd (p +:+ s) = p +:+ s.
Proof.
  intros H Hne. induction p as [|a p IH]; [exact H|].
  rewrite string_app_cons. apply trimEnd_cons; [exact IH|].
  destruct p; [exact Hne|discriminate].
Qed.

Lemma trimEnd_idempotent s : JS.trimEnd (JS.trimEnd s) = JS.trimEnd s.
Proof.
  induction s as [|a s IH]; [reflexivity|].
  cbn [JS.trimEnd]. destruct (JS.trimEnd s) as [|b r] eqn:E.
  - destruct (JS.isWhiteSpace a) eqn:W; [reflexivity|].
    cbn [JS.trimEnd]. rewrite W. reflexivity.
  - apply trimEnd_cons; [exact IH|discriminate].
Qed.

Lemma trimEnd_space s : JS.trimEnd (s +:+ " ") = JS.trimEnd s.
Proof.
  induction s as [|a s IH]; [reflexivity|].
  rewrite string_app_cons. cbn [JS.trimEnd]. rewrite IH. reflexivity.
Qed.

Lemma token_nonempty c : token c = true -> c <> "".
Proof. unfold token. intros [H _]%andb_prop ->. discriminate H. Qed.

Lemma token_trimEnd c : token c = true -> JS.trimEnd c = c.
Proof.
  unfold token. intros [_ H]%andb_prop.
  induction c as [|a c IH]; [reflexivity|].
  simpl in H. apply andb_prop in H as [Ha Hc].
  cbn [JS.trimEnd]. rewrite (IH Hc).
  destruct c; [|reflexivity].
  destruct (JS.isWhiteSpace a); [discriminate|reflexivity].
Qed.

Lemma token_startsNonWs c : token c = true -> startsNonWs c = true.
Proof.
  unfold token. intros [Hne H]%andb_prop. destruct c as [|a c]; [discriminate|].
  simpl in H. apply andb_prop in H as [Ha _]. exact Ha.
Qed.

Lemma token_lacks_space c : token c = true -> lacks " " c = true.
Proof.
  unfold token, lacks. intros [_ H]%andb_prop.
  induction (list_ascii_of_string c) as [|a l IH]; [reflexivity|].
  simpl in *. apply andb_prop in H as [Ha Hl]. rewrite (IH Hl), andb_true_r.
  destruct (Ascii.eqb_spec a " ") as [->|]; [discriminate Ha|reflexivity].
Qed.

(** ** The command table and the dispatch *)

(** The names of [commandList], which [help] prints and command completion
    suggests, are exactly the names that the [switch] of [handleCommand] has
    a case for. *)
Theorem registry_matches_dispatch (s : string) :
  classify s <> CmdDefault <-> In s (map fst commandList).
Proof.
  split.
  - unfold classify.
    repeat match goal with
           | |- context [String.eqb s ?x] =>
               destruct (String.eqb_spec s x) as [->|?]; [intros _; vm_compute; tauto|]
           end.
    intros H. exfalso. apply H. reflexivity.
  - intros H. cbn in H.
    repeat (destruct H as [<-|H]; [vm_compute; discriminate|]).
    destruct H.
Qed.

Lemma eqb_space_lowerChar c x :
  JS.lowerChar c = x -> Ascii.eqb c " " = Ascii.eqb x " ".
Proof. intros <-. destruct c as [[] [] [] [] [] [] [] []]; reflexivity. Qed.

(** A line that reads [about me] in lower case has the command [about]. *)
Lemma about_me_is_about s :
  JS.toLowerCase s = "about me" ->
  classify (JS.toLowerCase (hd "" (JS.split " " s))) = CmdAbout.
Proof.
  intros H.
  destruct s as [|c1 [|c2 [|c3 [|c4 [|c5 [|c6 [|c7 [|c8 [|c9 r]]]]]]]]];
    cbn [JS.toLowerCase] in H; try discriminate H.
  injection H as H1 H2 H3 H4 H5 H6 H7 H8.
  cbn [JS.split].
  rewrite (eqb_space_lowerChar _ _ H1), (eqb_space_lowerChar _ _ H2),
    (eqb_space_lowerChar _ _ H3), (eqb_space_lowerChar _ _ H4),
    (eqb_space_lowerChar _ _ H5), (eqb_space_lowerChar _ _ H6),
    (eqb_space_lowerChar _ _ H7), (eqb_space_lowerChar _ _ H8).
  cbn [Ascii.eqb Bool.eqb JS.split hd JS.toLowerCase].
  rewrite H1, H2, H3, H4, H5. reflexivity.
Qed.

Section MoreCommands.

Variable fetch : string -> option Json.
Variable atob : string -> option string.

(** A line of ASCII characters whose first token is not a command name is
    answered with
    [Command not found:] followed by the trimmed line as typed, and nothing
    else changes: the two-word special case [about me] of the default branch
    is never taken, such a line being the command [about]. *)
Theorem unknown_command_reported (line : string) (st : State) :
  asciiText line = true ->
  commandOf line = CmdDefault ->
  handleCommand fetch atob line st
  = (Normal {| clear := false; outcome_currentDirectory := Some (currentDirectory st) |},
     appendChild (Line ("Command not found: " +:+ JS.trim line)) st).
Proof.
  intros _ Hc. unfold commandOf in Hc. unfold handleCommand. rewrite Hc.
  destruct (String.eqb_spec (JS.toLowerCase (JS.trim line)) "about me") as [Habout|_];
    [|reflexivity].
  rewrite (about_me_is_about _ Habout) in Hc. discriminate Hc.
Qed.

Lemma trim_fixed_trimEnd text : JS.trim text = text -> JS.trimEnd text = text.
Proof. intros H. rewrite <- H at 1. unfold JS.trim. rewrite trimEnd_idempotent. exact H. Qed.

(** [echo] prints the text after it as typed, runs of spaces included. *)
Theorem echo_prints_argument (text : string) (st : State) :
  JS.trim text = text ->
  handleCommand fetch atob ("echo " +:+ text) st
  = (Normal {| clear := false; outcome_currentDirectory := Some (currentDirectory st) |},
     appendChild (Line text) st).
Proof.
  intros Ht. destruct (decide (text = "")) as [->|Hne]; [reflexivity|].
  assert (Htrim : JS.trim ("echo " +:+ text) = "echo " +:+ text).
  { unfold JS.trim. change (JS.trimStart ("echo " +:+ text)) with ("echo " +:+ text).
    apply trimEnd_app; [apply trim_fixed_trimEnd, Ht|exact Hne]. }
  assert (Hsplit : JS.split " " ("echo " +:+ text) = "echo" :: JS.split " " text)
    by (apply (split_app "echo" text); reflexivity).
  unfold handleCommand. cbv zeta. rewrite Htrim, Hsplit. cbn [hd tl].
  change (classify (JS.toLowerCase "echo")) with CmdEcho. cbv iota.
  rewrite join_split. reflexivity.
Qed.

(** ** The cache *)

(** A listing that was obtained is served from the cache from then on,
    whatever the content provider would answer, and serving it changes
    nothing; a failed request leaves no trace. *)
Theorem directory_listing_cached (path : string) (st : State) :
  (forall d st1,
     getDirectoryContents fetch path st = (Some d, st1) ->
     forall fetch', getDirectoryContents fetch' path st1 = (Some d, st1)) /\
  (forall st1, getDirectoryContents fetch path st = (None, st1) -> st1 = st).
Proof.
  unfold getDirectoryContents, fetchDirectory. split.
  - intros d st1 H fetch'.
    destruct (fileSystemCache st !! path) as [d0|] eqn:E.
    + injection H as <- <-. rewrite E. reflexivity.
    + destruct (fetch path) as [d0|]; [|discriminate H].
      injection H as <- <-. simpl. rewrite lookup_insert_eq. reflexivity.
  - intros st1 H.
    destruct (fileSystemCache st !! path) as [d0|]; [discriminate H|].
    destruct (fetch path) as [d0|]; [discriminate H|]. injection H as <-. reflexivity.
Qed.

(** A file that was read is read from the cache from then on: the same text,
    whatever the content provider would answer, and no change of state. *)
Theorem file_content_cached (path : string) (st st1 : State) (text : string) :
  getFileContent fetch atob path st = (Some text, st1) ->
  forall fetch', getFileContent fetch' atob path st1 = (Some text, st1).
Proof.
  intros H fetch'. unfold getFileContent in *.
  destruct (cachedContent path st) as [c|] eqn:E.
  - assert (Hst : st1 = st) by (destruct (atob c); injection H as _ <-; reflexivity).
    subst st1. rewrite E. exact H.
  - destruct (fetch path) as [[items|[ty|] content]|]; try discriminate H.
    destruct (String.eqb ty "file"); [|discriminate H].
    destruct (JS.truthy content) as [c|] eqn:T; [|discriminate H].
    destruct (atob c) as [t|] eqn:A; [|discriminate H].
    injection H as <- <-.
    unfold cachedContent. simpl. rewrite lookup_insert_eq, T, A. reflexivity.
Qed.

End MoreCommands.

(** ** The theme *)

(** A theme that [setTheme] accepts is the active theme again after the
    next page load, with the same document attribute; a saved selection that
    [setTheme] would refuse is ignored and the default theme stays. *)
Theorem theme_survives_reload (themeName : string) (st : State) :
  (fst (ThemeManager.setTheme themeName st) = true ->
   let st' := snd (ThemeManager.setTheme themeName st) in
   let next := startup (savedTheme st') in
   currentTheme next = themeName /\ dataTheme next = dataTheme st'
   /\ savedTheme next = Some themeName) /\
  (ThemeManager.get themeName = None ->
   let next := startup (Some themeName) in
   currentTheme next = "catppuccin-mocha" /\ dataTheme next = None).
Proof.
  split.
  - unfold ThemeManager.setTheme.
    destruct (ThemeManager.get themeName) as [v|] eqn:G; [intros _|discriminate].
    assert (Hne : themeName <> "") by (intros ->; discriminate G).
    unfold startup, ThemeManager.loadSavedTheme. simpl.
    apply String.eqb_neq in Hne. rewrite Hne, G.
    unfold ThemeManager.setTheme. rewrite G. repeat split.
  - intros G. unfold startup, ThemeManager.loadSavedTheme. simpl.
    destruct (String.eqb themeName ""); [repeat split|]. rewrite G. repeat split.
Qed.

(** Every theme that completion suggests for [themes <partial>] starts with
    [partial] and is accepted by [setTheme]. *)
Theorem theme_completions_are_themes (partial c : string) (st : State) :
  In c (getThemeCompletions partial) ->
  JS.startsWith c partial = true /\ fst (ThemeManager.setTheme c st) = true.
Proof.
  unfold getThemeCompletions. intros [Hin Hp]%filter_In. split; [exact Hp|].
  cbn in Hin. repeat (destruct Hin as [<-|Hin]; [reflexivity|]). destruct Hin.
Qed.

(** ** The age *)

(** [calculateAge] counts the birthdays that have come: the anniversary of
    that number is on or before today, the next one is not. *)
Theorem calculateAge_completed_years (birth today : Date) :
  onOrBefore (anniversary birth (calculateAge birth today)) today
  /\ ~ onOrBefore (anniversary birth (calculateAge birth today + 1)) today.
Proof.
  unfold calculateAge, onOrBefore, anniversary. simpl.
  destruct (Z.ltb_spec (getMonth today - getMonth birth) 0);
    destruct (Z.eqb_spec (getMonth today - getMonth birth) 0);
    destruct (Z.ltb_spec (getDate today) (getDate birth)); simpl; lia.
Qed.

(** ** Keys that are not the completion key *)

Lemma filter_idempotent {A : Type} (f : A -> bool) (l : list A) :
  List.filter f (List.filter f l) = List.filter f l.
Proof.
  induction l as [|a l IH]; [reflexivity|]. simpl.
  destruct (f a) eqn:E; [|exact IH]. simpl. rewrite E, IH. reflexivity.
Qed.

Lemma resetAutocompleteState_idempotent st :
  resetAutocompleteState (resetAutocompleteState st) = resetAutocompleteState st.
Proof.
  unfold resetAutocompleteState, set_terminal, set_autocomplete. simpl.
  rewrite filter_idempotent. reflexivity.
Qed.

Lemma input_is_reset v st : resetAutocompleteState (input v st) = input v st.
Proof. unfold input. apply resetAutocompleteState_idempotent. Qed.

Section OtherKeys.

Variable fetch : string -> option Json.
Variable atob : string -> option string.

(** No command touches the autocomplete session, the input field or the
    pending requests. *)
Lemma handleCommand_controller line st :
  let st' := snd (handleCommand fetch atob line st) in
  autocompleteSuggestions st' = autocompleteSuggestions st
  /\ autocompleteIndex st' = autocompleteIndex st
  /\ autocompleteBaseInput st' = autocompleteBaseInput st
  /\ hiddenInput st' = hiddenInput st
  /\ pending st' = pending st.
Proof.
  unfold_logic. repeat case_match; simplify_eq; simpl; auto.
Qed.

(** Enter on a line that is empty or blank does nothing beyond what typing
    the line did: no history entry, no echo, no output, no new prompt, and
    the field keeps what was typed. *)
Theorem blank_line_is_ignored (line : string) (st : State) :
  JS.trim line = "" -> submit fetch atob line st = input line st.
Proof.
  intros Hb. unfold submit. rewrite keydown_plain.
  change (String.eqb "Enter" "ArrowUp") with false.
  change (String.eqb "Enter" "ArrowDown") with false.
  change (String.eqb "Enter" "Enter") with true. cbv zeta iota.
  rewrite input_is_reset. unfold enter. rewrite input_is_reset.
  change (hiddenInput (input line st)) with line. rewrite Hb. reflexivity.
Qed.

(** Ctrl+L, in either case of the letter, leaves one fresh prompt for the
    current directory as the whole output and empties the input field;
    history, history cursor, working directory and cache stay, and the
    autocomplete session ends. *)
Theorem clear_screen_shortcut (key : string) (st : State) :
  JS.toLowerCase key = "l" ->
  let st' := keydown fetch atob true key st in
  terminal st' = [Prompt (promptCount st) (dirDisplay (currentDirectory st)) ""]
  /\ hiddenInput st' = ""
  /\ commandHistory st' = commandHistory st
  /\ historyIndex st' = historyIndex st
  /\ currentDirectory st' = currentDirectory st
  /\ fileSystemCache st' = fileSystemCache st
  /\ idle st'.
Proof.
  intros Hk. unfold keydown. rewrite Hk. cbn [andb String.eqb Ascii.eqb Bool.eqb].
  unfold clearScreen, idle. cbn. rewrite Nat.eqb_refl. repeat split.
Qed.

Lemma idle_resetAutocompleteState st : idle (resetAutocompleteState st).
Proof. repeat split. Qed.

Lemma idle_enter span st : idle st -> idle (enter fetch atob span st).
Proof.
  intros Hi. unfold enter.
  destruct (String.eqb _ ""); [apply idle_resetAutocompleteState|].
  set (st2 := set_history _ _ _).
  assert (H2 : idle st2) by apply idle_resetAutocompleteState.
  destruct (String.eqb _ "clear").
  - destruct (handleCommand_controller (JS.trim (hiddenInput (resetAutocompleteState st))) st2)
      as (A & B & C & _).
    destruct (handleCommand _ _ _ st2) as [[o|] st3]; simpl in A, B, C;
      [destruct (clear o)|]; unfold idle; simpl; rewrite A, B, C; exact H2.
  - destruct span as [id|]; [|exact H2].
    set (st3 := set_terminal _ st2).
    destruct (handleCommand_controller (JS.trim (hiddenInput (resetAutocompleteState st))) st3)
      as (A & B & C & _).
    destruct (handleCommand _ _ _ st3) as [[o|] st4]; simpl in A, B, C;
      [destruct (clear o)|]; unfold idle; simpl; rewrite A, B, C; exact H2.
Qed.

Lemma keydown_other_idle ctrl key st :
  ctrl && String.eqb (JS.toLowerCase key) "u" = false ->
  idle (keydown fetch atob ctrl key st).
Proof.
  intros Hk. unfold keydown. rewrite Hk. clear Hk.
  destruct (ctrl && String.eqb (JS.toLowerCase key) "l").
  - unfold clearScreen. repeat split.
  - match goal with |- idle (if _ then enter _ _ _ ?s else ?s) =>
      assert (H2 : idle s) end.
    { destruct (String.eqb key "ArrowUp").
      - unfold arrowUp, loadHistory. destruct (_ && _); repeat split.
      - destruct (String.eqb key "ArrowDown"); [|repeat split].
        unfold arrowDown, loadHistory.
        destruct (0 <? _); [repeat split|]. destruct (_ =? 0); repeat split. }
    destruct (String.eqb key "Enter"); [apply idle_enter, H2|exact H2].
Qed.

(** Every key other than Ctrl+U, and every change of the input field, ends
    the autocomplete session: no candidates, index -1, empty base input. *)
Theorem other_keys_end_session (st : State) :
  (forall ctrl key,
     ctrl && String.eqb (JS.toLowerCase key) "u" = false ->
     idle (keydown fetch atob ctrl key st)) /\
  (forall value, idle (input value st)).
Proof.
  split; [|intros value; repeat split].
  intros ctrl key Hk. apply keydown_other_idle, Hk.
Qed.

End OtherKeys.

(** ** The completion key *)

Lemma string_app_assoc (a b c : string) : (a +:+ b) +:+ c = a +:+ (b +:+ c).
Proof.
  induction a as [|x a IH]; [reflexivity|]. rewrite !string_app_cons, IH. reflexivity.
Qed.

Lemma trimStart_shape s : JS.trimStart s = "" \/ startsNonWs (JS.trimStart s) = true.
Proof.
  induction s as [|a s IH]; [left; reflexivity|]. cbn [JS.trimStart].
  destruct (JS.isWhiteSpace a) eqn:W; [exact IH|].
  right. cbn [startsNonWs]. rewrite W. reflexivity.
Qed.

Lemma trimEnd_first a s :
  JS.trimEnd (String a s) = "" \/ exists r, JS.trimEnd (String a s) = String a r.
Proof.
  cbn [JS.trimEnd]. destruct (JS.trimEnd s).
  - destruct (JS.isWhiteSpace a); [left|right; eexists]; reflexivity.
  - right. eexists. reflexivity.
Qed.

Lemma trim_idempotent s : JS.trim (JS.trim s) = JS.trim s.
Proof.
  unfold JS.trim.
  assert (H : JS.trimStart (JS.trimEnd (JS.trimStart s)) = JS.trimEnd (JS.trimStart s)).
  { destruct (trimStart_shape s) as [->|H]; [reflexivity|].
    destruct (JS.trimStart s) as [|a t]; [discriminate|].
    destruct (trimEnd_first a t) as [->|[r ->]]; [reflexivity|].
    cbn [startsNonWs] in H. cbn [JS.trimStart].
    destruct (JS.isWhiteSpace a); [discriminate|reflexivity]. }
  rewrite H. apply trimEnd_idempotent.
Qed.

Lemma startsNonWs_app x y : startsNonWs x = true -> startsNonWs (x +:+ y) = true.
Proof. destruct x; [discriminate|]. rewrite string_app_cons. intros H. exact H. Qed.

Lemma join_cons_nonempty sep x l :
  l <> [] -> JS.join sep (x :: l) = x +:+ sep +:+ JS.join sep l.
Proof. destruct l; [congruence|reflexivity]. Qed.

Lemma join_snoc l c : exists p, JS.join " " (l ++ [c]) = p +:+ c.
Proof.
  induction l as [|x l [p IH]]; [exists ""; reflexivity|].
  exists (x +:+ " " +:+ p). rewrite <- app_comm_cons, join_cons_nonempty.
  - rewrite IH, !string_app_assoc. reflexivity.
  - destruct l; discriminate.
Qed.

Lemma app_nonempty_r p c : c <> "" -> p +:+ c <> "".
Proof. intros Hc. destruct p; [exact Hc|discriminate]. Qed.

Lemma startsNonWs_join base c :
  (base = [] \/ startsNonWs (hd "" base) = true) -> startsNonWs c = true ->
  startsNonWs (JS.join " " (base ++ [c])) = true.
Proof.
  intros [->|Hb] Hc; [exact Hc|]. destruct base as [|p base]; [exact Hc|].
  rewrite <- app_comm_cons, join_cons_nonempty by (destruct base; discriminate).
  apply startsNonWs_app, Hb.
Qed.

(** A line that a completion produced trims to the words it was built from. *)
Lemma trim_join base c :
  baseTokens base -> token c = true ->
  JS.trim (JS.join " " (base ++ [c])) = JS.join " " (base ++ [c]).
Proof.
  intros [_ Hb] Hc. unfold JS.trim.
  rewrite trimStart_startsNonWs by (apply startsNonWs_join; [exact Hb|apply token_startsNonWs, Hc]).
  destruct (join_snoc base c) as [p ->].
  apply trimEnd_app; [apply token_trimEnd, Hc|apply token_nonempty, Hc].
Qed.

Lemma trim_completedLine base c :
  baseTokens base -> token c = true ->
  JS.trim (completedLine base c) = JS.join " " (base ++ [c]).
Proof.
  intros Hb Hc. unfold completedLine, JS.trim.
  rewrite trimStart_startsNonWs
    by (apply startsNonWs_app, startsNonWs_join;
        [apply Hb|apply token_startsNonWs, Hc]).
  rewrite trimEnd_space.
  pose proof (trim_join base c Hb Hc) as H. unfold JS.trim in H.
  rewrite trimStart_startsNonWs in H
    by (apply startsNonWs_join; [apply Hb|apply token_startsNonWs, Hc]).
  exact H.
Qed.

Lemma split_words base c :
  baseTokens base -> token c = true ->
  JS.split " " (JS.join " " (base ++ [c])) = base ++ [c].
Proof.
  intros [Hb _] Hc. apply split_join; [destruct base; discriminate|].
  apply Forall_app. split; [exact Hb|]. constructor; [|constructor].
  apply token_lacks_space, Hc.
Qed.

Lemma replace_last_word (parts : list string) (c : string) :
  parts <> [] ->
  (if Nat.eqb (length parts) 1 then c +:+ " "
   else JS.join " " (removelast parts ++ [c]) +:+ " ")
  = completedLine (removelast parts) c.
Proof.
  intros Hne. unfold completedLine.
  destruct parts as [|x [|y r]]; [congruence|reflexivity|reflexivity].
Qed.

Lemma base_of_words (base : list string) (c : string) :
  (if Nat.eqb (length (base ++ [c])) 1 then ""
   else JS.join " " (removelast (base ++ [c]))) = JS.join " " base.
Proof.
  rewrite removelast_last. destruct base as [|x base]; [reflexivity|].
  rewrite length_app. simpl. rewrite Nat.add_comm. reflexivity.
Qed.

Lemma getBaseInput_words base c :
  baseTokens base -> token c = true ->
  getBaseInput (JS.join " " (base ++ [c])) = JS.join " " base.
Proof.
  intros Hb Hc. unfold getBaseInput.
  rewrite trim_join, split_words by assumption. apply base_of_words.
Qed.

Lemma applyCompletion_words span base c c' st :
  baseTokens base -> token c = true ->
  hiddenInput st = completedLine base c ->
  hiddenInput (applyCompletion span c' st) = completedLine base c'.
Proof.
  intros Hb Hc Hv. rewrite applyCompletion_value, Hv.
  rewrite trim_completedLine, split_words by assumption.
  rewrite replace_last_word by (destruct base; discriminate).
  rewrite removelast_last. reflexivity.
Qed.

Lemma applyCompletion_frame span c st :
  autocompleteSuggestions (applyCompletion span c st) = autocompleteSuggestions st
  /\ autocompleteIndex (applyCompletion span c st) = autocompleteIndex st
  /\ autocompleteBaseInput (applyCompletion span c st) = autocompleteBaseInput st.
Proof. repeat split. Qed.

Lemma nth_lookup_string (l : list string) (i : nat) :
  (i < length l)%nat -> l !! i = Some (nth i l "").
Proof.
  revert i. induction l as [|x l IH]; intros i Hi; simpl in Hi; [lia|].
  destruct i; [reflexivity|]. simpl. apply IH. lia.
Qed.

Lemma rem_succ (i n : nat) :
  (i < n)%nat -> Z.rem (Z.of_nat i + 1) (Z.of_nat n) = Z.of_nat ((i + 1) mod n).
Proof.
  intros Hi. rewrite Z.rem_mod_nonneg by lia.
  rewrite Nat2Z.inj_mod, Nat2Z.inj_add. reflexivity.
Qed.

Section Completion.

Variable fetch : string -> option Json.
Variable atob : string -> option string.

Lemma getAutocompleteSuggestions_controller line st :
  let st' := snd (getAutocompleteSuggestions fetch line st) in
  hiddenInput st' = hiddenInput st
  /\ autocompleteSuggestions st' = autocompleteSuggestions st
  /\ autocompleteIndex st' = autocompleteIndex st
  /\ autocompleteBaseInput st' = autocompleteBaseInput st
  /\ terminal st' = terminal st
  /\ commandHistory st' = commandHistory st
  /\ historyIndex st' = historyIndex st
  /\ currentDirectory st' = currentDirectory st.
Proof.
  unfold getAutocompleteSuggestions, getFileCompletions, getDirectoryCompletions,
    getDirectoryContents, fetchDirectory.
  repeat case_match; simplify_eq; simpl; auto 10.
Qed.

(** One press of Ctrl+U while a session is cycling selects the next
    candidate, wrapping after the last, and rewrites the last word of the
    line with it. *)
Lemma ctrlU_cycles base l i st :
  baseTokens base -> Forall (fun c => token c = true) l ->
  cycling base l i st ->
  cycling base l ((i + 1) mod length l) (ctrlU fetch atob st).
Proof.
  intros Hb Hl (Hs & Hi & Hlt & Hbase & Hv).
  assert (Hc : token (nth i l "") = true).
  { apply (proj1 (Forall_nth _ "" l) Hl), Hlt. }
  unfold ctrlU, keydown.
  change (true && String.eqb (JS.toLowerCase "u") "u") with true. cbv iota zeta.
  rewrite Hv, trim_completedLine by assumption.
  destruct (join_snoc base (nth i l "")) as [p Hp].
  destruct (String.eqb_spec (JS.join " " (base ++ [nth i l ""])) "") as [E|_].
  { exfalso. rewrite Hp in E. revert E. apply app_nonempty_r, token_nonempty, Hc. }
  rewrite getBaseInput_words, Hbase, String.eqb_refl, Hs, andb_true_r by assumption.
  destruct (Nat.ltb_spec 0 (length l)) as [_|]; [|lia].
  unfold cycleToNextSuggestion. rewrite Hs, Hi.
  destruct (Nat.eqb_spec (length l) 0) as [|_]; [lia|].
  rewrite rem_succ by exact Hlt.
  assert (Hlt' : ((i + 1) mod length l < length l)%nat) by (apply Nat.mod_upper_bound; lia).
  rewrite arrayGet_nat, (nth_lookup_string _ _ Hlt'). cbn [display from_option id].
  set (st1 := set_autocompleteIndex _ st).
  set (c' := nth ((i + 1) mod length l) l "").
  destruct (showCompletionOptions_frame (userInputSpan (terminal st)) l
              (Z.of_nat ((i + 1) mod length l))
              (applyCompletion (userInputSpan (terminal st)) c' st1))
    as (F1 & F2 & F3 & F4).
  unfold cycling. rewrite F1, F2, F3, F4.
  repeat split; try assumption.
  apply (applyCompletion_words _ base (nth i l "")); assumption.
Qed.

(** While a session is cycling, [k] presses of Ctrl+U advance the selection
    by [k] places round the candidate list: the line always ends in the
    selected candidate, and as many presses as there are candidates bring
    back the line the cycle started from. *)
Theorem completion_cycle_wraps (base l : list string) (i k : nat) (st : State) :
  baseTokens base -> Forall (fun c => token c = true) l ->
  cycling base l i st ->
  cycling base l ((i + k) mod length l) (Nat.iter k (ctrlU fetch atob) st)
  /\ hiddenInput (Nat.iter (length l) (ctrlU fetch atob) st) = hiddenInput st.
Proof.
  intros Hb Hl Hc.
  assert (Hk : forall k, cycling base l ((i + k) mod length l)
                           (Nat.iter k (ctrlU fetch atob) st)).
  { clear k. induction k as [|k IH].
    - change (Nat.iter 0 (ctrlU fetch atob) st) with st.
      rewrite Nat.add_0_r, Nat.mod_small by apply Hc. exact Hc.
    - rewrite Nat.iter_succ.
      replace ((i + S k) mod length l)%nat
        with (((i + k) mod length l + 1) mod length l)%nat
        by (rewrite Nat.Div0.add_mod_idemp_l; f_equal; lia).
      apply ctrlU_cycles; assumption. }
  split; [apply Hk|].
  destruct (Hk (length l)) as (_ & _ & _ & _ & Hv).
  destruct Hc as (_ & _ & Hlt & _ & Hv0).
  rewrite Hv, Hv0.
  replace (i + length l)%nat with (i + 1 * length l)%nat by lia.
  rewrite Nat.Div0.mod_add, Nat.mod_small by exact Hlt. reflexivity.
Qed.

(** Ctrl+U on a non-blank line of ASCII characters outside a session, when
    the candidates are
    found without waiting for the network: with none the line and the idle
    state stay, with one the last word is replaced and the state stays
    idle, with several the first replaces the last word and a session over
    all of them starts at the first. *)
Theorem completion_starts (l : list string) (st st1 : State) :
  asciiText (hiddenInput st) = true ->
  idle st ->
  JS.trim (hiddenInput st) <> "" ->
  suspendsOnFetch (JS.trim (hiddenInput st)) (userInputSpan (terminal st)) st = None ->
  getAutocompleteSuggestions fetch (JS.trim (hiddenInput st)) st = (Normal l, st1) ->
  let base := removelast (JS.split " " (JS.trim (hiddenInput st))) in
  let st' := ctrlU fetch atob st in
  match l with
  | [] => hiddenInput st' = hiddenInput st /\ idle st'
  | [c] => hiddenInput st' = completedLine base c /\ idle st'
  | c :: _ => cycling base l 0 st'
  end.
Proof.
  intros _ (Hs & Hi & Hbase) Hne Hsusp Hget base st'. subst st'.
  unfold ctrlU, keydown.
  change (true && String.eqb (JS.toLowerCase "u") "u") with true. cbv iota zeta.
  apply String.eqb_neq in Hne. rewrite Hne, Hs. cbn [length Nat.ltb Nat.leb andb].
  unfold startNewAutocompleteSession. rewrite Hsusp, Hget.
  destruct (getAutocompleteSuggestions_controller (JS.trim (hiddenInput st)) st)
    as (F1 & F2 & F3 & F4 & _).
  rewrite Hget in F1, F2, F3, F4. cbn [snd] in F1, F2, F3, F4.
  destruct l as [|c [|c' r]]; cbn [receiveSuggestions].
  - unfold showNoMatchesMessage, idle.
    destruct (userInputSpan (terminal st)); cbn; rewrite F1, F2, F3, F4; auto.
  - split; [|apply idle_resetAutocompleteState].
    change (hiddenInput (resetAutocompleteState ?s)) with (hiddenInput s).
    rewrite applyCompletion_value.
    change (hiddenInput (set_autocomplete ?a ?b ?c ?s)) with (hiddenInput s).
    rewrite F1, replace_last_word by apply split_nonempty. reflexivity.
  - match goal with |- cycling _ _ _ (showCompletionOptions ?sp ?sl ?si ?s) =>
      destruct (showCompletionOptions_frame sp sl si s) as (G1 & G2 & G3 & G4) end.
    unfold cycling. rewrite G1, G2, G3, G4.
    split; [reflexivity|]. split; [reflexivity|]. split; [simpl; lia|].
    split.
    + cbn. unfold getBaseInput. rewrite trim_idempotent.
      fold base. unfold base.
      destruct (JS.split " " (JS.trim (hiddenInput st))) as [|x [|y t]];
        [reflexivity|reflexivity|reflexivity].
    + rewrite applyCompletion_value.
      change (hiddenInput (set_autocomplete ?a ?b ?c ?s)) with (hiddenInput s).
      rewrite F1, replace_last_word by apply split_nonempty. reflexivity.
Qed.

End Completion.

(** ** What holds in every state the page reaches *)

Lemma startup_state saved :
  commandHistory (startup saved) = [] /\ historyIndex (startup saved) = -1
  /\ idle (startup saved)
  /\ fileSystemCache (startup saved) = ∅ /\ currentDirectory (startup saved) = "/".
Proof.
  unfold startup, ThemeManager.loadSavedTheme, ThemeManager.setTheme, idle.
  repeat case_match; repeat split.
Qed.

Section StepInduction.

Variable fetch : string -> option Json.
Variable atob : string -> option string.

Lemma run_invariant (P : State -> Prop) :
  (forall e st, P st -> P (step fetch atob e st)) ->
  forall events st, P st -> P (run fetch atob events st).
Proof.
  intros Hstep events. unfold run.
  induction events as [|e events IH]; intros st HP; simpl; [exact HP|].
  apply IH, Hstep, HP.
Qed.

Lemma run_snoc events e st :
  run fetch atob (events ++ [e]) st = step fetch atob e (run fetch atob events st).
Proof. unfold run. rewrite fold_left_app. reflexivity. Qed.

(** *** The history cursor *)

Lemma cursor_same st st' :
  commandHistory st' = commandHistory st -> historyIndex st' = historyIndex st ->
  cursorInBounds st -> cursorInBounds st'.
Proof. unfold cursorInBounds. intros -> ->. exact id. Qed.

Lemma cursor_arrowUp span st : cursorInBounds st -> cursorInBounds (arrowUp span st).
Proof.
  unfold cursorInBounds, arrowUp, loadHistory. intros H.
  destruct (Z.ltb_spec 0 (Z.of_nat (length (commandHistory st)))); [|exact H].
  destruct (Z.ltb_spec (historyIndex st) (Z.of_nat (length (commandHistory st)) - 1));
    [|exact H].
  simpl. lia.
Qed.

Lemma cursor_arrowDown span st : cursorInBounds st -> cursorInBounds (arrowDown span st).
Proof.
  unfold cursorInBounds, arrowDown, loadHistory. intros H.
  destruct (Z.ltb_spec 0 (historyIndex st)); [simpl; lia|].
  destruct (Z.eqb_spec (historyIndex st) 0); [simpl; lia|exact H].
Qed.

Lemma cursor_enter span st : cursorInBounds st -> cursorInBounds (enter fetch atob span st).
Proof.
  intros H. destruct (decide (JS.trim (hiddenInput st) = "")) as [E|E].
  - unfold enter. change (hiddenInput (resetAutocompleteState st)) with (hiddenInput st).
    rewrite E. exact H.
  - destruct (enter_history fetch atob span st E) as [Hh Hi].
    unfold cursorInBounds. rewrite Hh, Hi, length_app. simpl. lia.
Qed.

Lemma cursor_receiveSuggestions line span l st :
  cursorInBounds st -> cursorInBounds (receiveSuggestions line span l st).
Proof.
  apply cursor_same; unfold receiveSuggestions; frame.
Qed.

Lemma cursor_keydown ctrl key st :
  cursorInBounds st -> cursorInBounds (keydown fetch atob ctrl key st).
Proof.
  intros HI. unfold keydown.
  destruct (ctrl && String.eqb (JS.toLowerCase key) "u").
  - destruct (String.eqb _ ""); [exact HI|].
    destruct (_ && _).
    + revert HI. apply cursor_same; unfold cycleToNextSuggestion; frame.
    + unfold startNewAutocompleteSession.
      destruct (suspendsOnFetch _ _ _); [exact HI|].
      destruct (getAutocompleteSuggestions_controller fetch (JS.trim (hiddenInput st)) st)
        as (_ & _ & _ & _ & _ & Hh & Hi & _).
      destruct (getAutocompleteSuggestions _ _ _) as [[l|] st1]; simpl in Hh, Hi.
      * apply cursor_receiveSuggestions. revert HI. apply cursor_same; assumption.
      * revert HI. apply cursor_same; assumption.
  - assert (H1 : cursorInBounds (resetAutocompleteState st)) by exact HI.
    destruct (ctrl && _).
    + exact H1.
    + match goal with |- cursorInBounds (if _ then enter _ _ _ ?s else ?s) =>
        assert (H2 : cursorInBounds s) end.
      { destruct (String.eqb key "ArrowUp"); [apply cursor_arrowUp, H1|].
        destruct (String.eqb key "ArrowDown"); [apply cursor_arrowDown, H1|exact H1]. }
      destruct (String.eqb key "Enter"); [apply cursor_enter, H2|exact H2].
Qed.

Lemma cursor_step e st : cursorInBounds st -> cursorInBounds (step fetch atob e st).
Proof.
  intros HI. destruct e as [v|ctrl key|n]; simpl.
  - exact HI.
  - apply cursor_keydown, HI.
  - destruct (pending st !! n); [|exact HI]. unfold resumeAutocomplete, fetchDirectory.
    destruct (fetch _); simpl; destruct (requestSuggestions _ _ _);
      try apply cursor_receiveSuggestions; exact HI.
Qed.

(** *** The autocomplete session *)

Lemma shape_same st st' :
  autocompleteSuggestions st' = autocompleteSuggestions st ->
  autocompleteIndex st' = autocompleteIndex st ->
  autocompleteBaseInput st' = autocompleteBaseInput st ->
  sessionShape st -> sessionShape st'.
Proof. unfold sessionShape, idle. intros -> -> ->. exact id. Qed.

Lemma shape_receiveSuggestions line span l st :
  sessionShape st -> sessionShape (receiveSuggestions line span l st).
Proof.
  intros HI. destruct l as [|c [|c' r]]; cbn [receiveSuggestions].
  - revert HI. apply shape_same; unfold showNoMatchesMessage; destruct span; reflexivity.
  - left. apply idle_resetAutocompleteState.
  - right.
    match goal with |- context [showCompletionOptions ?sp ?sl ?si ?s] =>
      destruct (showCompletionOptions_frame sp sl si s) as (_ & G2 & G3 & _) end.
    rewrite G2, G3. cbn. lia.
Qed.

Lemma shape_cycleToNextSuggestion span st :
  sessionShape st -> sessionShape (cycleToNextSuggestion span st).
Proof.
  intros HI. unfold cycleToNextSuggestion.
  destruct (Nat.eqb_spec (length (autocompleteSuggestions st)) 0) as [|Hn]; [exact HI|].
  destruct HI as [(Hs & _)|[Hlen Hidx]]; [rewrite Hs in Hn; simpl in Hn; lia|].
  right.
  match goal with |- context [showCompletionOptions ?sp ?sl ?si ?s] =>
    destruct (showCompletionOptions_frame sp sl si s) as (_ & G2 & G3 & _) end.
  rewrite G2, G3. cbn. split; [exact Hlen|].
  apply Z.rem_bound_pos; lia.
Qed.

Lemma shape_keydown ctrl key st :
  sessionShape st -> sessionShape (keydown fetch atob ctrl key st).
Proof.
  intros HI.
  destruct (ctrl && String.eqb (JS.toLowerCase key) "u") eqn:E;
    [|left; apply keydown_other_idle, E].
  unfold keydown. rewrite E. clear E.
  destruct (String.eqb _ ""); [exact HI|].
  destruct (_ && _); [apply shape_cycleToNextSuggestion, HI|].
  unfold startNewAutocompleteSession.
  destruct (suspendsOnFetch _ _ _); [exact HI|].
  destruct (getAutocompleteSuggestions_controller fetch (JS.trim (hiddenInput st)) st)
    as (_ & Hs & Hi & Hb & _).
  destruct (getAutocompleteSuggestions _ _ _) as [[l|] st1]; simpl in Hs, Hi, Hb.
  - apply shape_receiveSuggestions. revert HI. apply shape_same; assumption.
  - revert HI. apply shape_same; assumption.
Qed.

Lemma shape_step e st : sessionShape st -> sessionShape (step fetch atob e st).
Proof.
  intros HI. destruct e as [v|ctrl key|n]; simpl.
  - left. repeat split.
  - apply shape_keydown, HI.
  - destruct (pending st !! n); [|exact HI]. unfold resumeAutocomplete, fetchDirectory.
    destruct (fetch _); simpl; destruct (requestSuggestions _ _ _);
      try apply shape_receiveSuggestions; exact HI.
Qed.

(** In every state the page reaches from its start, the history cursor is
    -1 or the distance of an existing history entry from the newest one, and
    the autocomplete variables either hold no session or hold at least two
    candidates with the index pointing at one of them: neither the arrow
    keys nor Ctrl+U can read past the end of its list. *)
Theorem cursors_stay_in_bounds (saved : option string) (events : list Event) :
  let st := run fetch atob events (startup saved) in
  cursorInBounds st /\ sessionShape st.
Proof.
  cbv zeta. split.
  - apply (run_invariant cursorInBounds); [apply cursor_step|].
    destruct (startup_state saved) as (Hh & Hi & _).
    unfold cursorInBounds. rewrite Hh, Hi. simpl. lia.
  - apply (run_invariant sessionShape); [apply shape_step|].
    left. apply startup_state.
Qed.

End StepInduction.
(** *** The working directory and the cache *)

Section Filesystem.

Variable fetch : string -> option Json.
Variable atob : string -> option string.

(** A property that reads only the working directory and the cache, and
    that commands and fetches preserve, holds after every event. *)
Variable P : State -> Prop.
Hypothesis P_sameFS : forall st st', sameFS st st' -> P st -> P st'.
Hypothesis P_handleCommand :
  forall line st, P st -> P (snd (handleCommand fetch atob line st)).
Hypothesis P_fetchDirectory :
  forall path st, P st -> P (snd (fetchDirectory fetch path st)).

Lemma fs_same st st' :
  currentDirectory st' = currentDirectory st ->
  fileSystemCache st' = fileSystemCache st -> P st -> P st'.
Proof. intros H1 H2. apply P_sameFS. split; assumption. Qed.

Lemma fs_getAutocompleteSuggestions line st :
  P st -> P (snd (getAutocompleteSuggestions fetch line st)).
Proof.
  intros HI.
  unfold getAutocompleteSuggestions, getFileCompletions, getDirectoryCompletions,
    getDirectoryContents.
  repeat case_match; simplify_eq; simpl; try exact HI;
    match goal with
    | H : fetchDirectory _ ?p ?s = (?o, ?s') |- P ?s' =>
        change s' with (snd (o, s')); rewrite <- H; apply P_fetchDirectory, HI
    end.
Qed.

Lemma fs_enter span st : P st -> P (enter fetch atob span st).
Proof.
  intros HI. unfold enter.
  assert (H1 : P (resetAutocompleteState st))
    by (eapply P_sameFS; [apply sameFS_resetAutocompleteState|exact HI]).
  destruct (String.eqb _ ""); [exact H1|].
  set (st2 := set_history _ _ _).
  assert (H2 : P st2) by (revert H1; apply fs_same; reflexivity).
  destruct (String.eqb _ "clear").
  - pose proof (P_handleCommand
                  (JS.trim (hiddenInput (resetAutocompleteState st))) st2 H2) as H.
    destruct (handleCommand _ _ _ st2) as [[o|] st3]; simpl in H; [|exact H].
    destruct (clear o); [|exact H]. revert H. apply fs_same; reflexivity.
  - destruct span as [id|]; [|exact H2].
    set (st3 := set_terminal _ st2).
    assert (H3 : P st3) by (revert H2; apply fs_same; reflexivity).
    pose proof (P_handleCommand
                  (JS.trim (hiddenInput (resetAutocompleteState st))) st3 H3) as H.
    destruct (handleCommand _ _ _ st3) as [[o|] st4]; simpl in H.
    + destruct (clear o); [exact H|]. revert H. apply fs_same; reflexivity.
    + revert H. apply fs_same; reflexivity.
Qed.

Lemma fs_keydown ctrl key st : P st -> P (keydown fetch atob ctrl key st).
Proof.
  intros HI. unfold keydown.
  destruct (ctrl && String.eqb (JS.toLowerCase key) "u").
  - destruct (String.eqb _ ""); [exact HI|].
    destruct (_ && _).
    + eapply P_sameFS; [apply sameFS_cycleToNextSuggestion|exact HI].
    + unfold startNewAutocompleteSession.
      destruct (suspendsOnFetch _ _ _); [revert HI; apply fs_same; reflexivity|].
      pose proof (fs_getAutocompleteSuggestions (JS.trim (hiddenInput st)) st HI) as H.
      destruct (getAutocompleteSuggestions _ _ _) as [[l|] st1]; simpl in H; [|exact H].
      eapply P_sameFS; [apply sameFS_receiveSuggestions|exact H].
  - assert (H1 : P (resetAutocompleteState st))
      by (eapply P_sameFS; [apply sameFS_resetAutocompleteState|exact HI]).
    destruct (ctrl && _).
    + eapply P_sameFS; [apply sameFS_clearScreen|exact H1].
    + match goal with |- P (if _ then enter _ _ _ ?s else ?s) =>
        assert (H2 : P s) end.
      { destruct (String.eqb key "ArrowUp");
          [eapply P_sameFS; [apply sameFS_arrowUp|exact H1]|].
        destruct (String.eqb key "ArrowDown");
          [eapply P_sameFS; [apply sameFS_arrowDown|exact H1]|exact H1]. }
      destruct (String.eqb key "Enter"); [apply fs_enter, H2|exact H2].
Qed.

Lemma fs_step e st : P st -> P (step fetch atob e st).
Proof.
  intros HI. destruct e as [v|ctrl key|n]; simpl.
  - eapply P_sameFS; [apply sameFS_input|exact HI].
  - apply fs_keydown, HI.
  - destruct (pending st !! n) as [rq|]; [|exact HI]. unfold resumeAutocomplete.
    set (st0 := set_pending _ st).
    assert (H0 : P st0) by (revert HI; apply fs_same; reflexivity).
    pose proof (P_fetchDirectory (rq_path rq) st0 H0) as H.
    destruct (fetchDirectory fetch (rq_path rq) st0) as [c st1]; simpl in H.
    destruct (requestSuggestions rq c st1); [|exact H].
    eapply P_sameFS; [apply sameFS_receiveSuggestions|exact H].
Qed.

Lemma fs_run events st : P st -> P (run fetch atob events st).
Proof. apply run_invariant. apply fs_step. Qed.

End Filesystem.

Section Cache.

Variable fetch : string -> option Json.
Variable atob : string -> option string.

Lemma cacheInvariant_insert st0 st st' path d :
  fetch path = Some d ->
  fileSystemCache st' = <[path := d]> (fileSystemCache st) ->
  cacheInvariant fetch st0 st -> cacheInvariant fetch st0 st'.
Proof.
  intros Hf Hc [Hco Hk]. split.
  - intros p' d' Hl. rewrite Hc in Hl.
    apply lookup_insert_Some in Hl as [[<- <-]|[_ Hl]]; [exact Hf|apply Hco, Hl].
  - intros p' d' Hl. rewrite Hc. apply Hk in Hl.
    destruct (decide (path = p')) as [<-|Hne].
    + apply Hco in Hl. rewrite Hf in Hl. injection Hl as <-. apply lookup_insert_eq.
    + rewrite lookup_insert_ne by exact Hne. exact Hl.
Qed.

Lemma cacheInvariant_same st0 st st' :
  fileSystemCache st' = fileSystemCache st ->
  cacheInvariant fetch st0 st -> cacheInvariant fetch st0 st'.
Proof.
  unfold cacheInvariant, coherentCache, cacheKeeps. intros ->. exact id.
Qed.

Lemma cacheInvariant_fetchDirectory st0 path st :
  cacheInvariant fetch st0 st -> cacheInvariant fetch st0 (snd (fetchDirectory fetch path st)).
Proof.
  intros HI. unfold fetchDirectory. destruct (fetch path) as [d|] eqn:F; [|exact HI].
  eapply cacheInvariant_insert; [exact F|reflexivity|exact HI].
Qed.

Lemma cacheInvariant_getDirectoryContents st0 path st :
  cacheInvariant fetch st0 st -> cacheInvariant fetch st0 (snd (getDirectoryContents fetch path st)).
Proof.
  intros HI. unfold getDirectoryContents.
  destruct (_ !! _); [exact HI|apply cacheInvariant_fetchDirectory, HI].
Qed.

Lemma cacheInvariant_getFileContent st0 path st :
  cacheInvariant fetch st0 st -> cacheInvariant fetch st0 (snd (getFileContent fetch atob path st)).
Proof.
  intros HI. unfold getFileContent.
  repeat case_match; simplify_eq; simpl; try exact HI;
    (eapply cacheInvariant_insert; [eassumption|reflexivity|exact HI]).
Qed.

Lemma cacheInvariant_handleCommand st0 line st :
  cacheInvariant fetch st0 st -> cacheInvariant fetch st0 (snd (handleCommand fetch atob line st)).
Proof.
  intros HI. unfold handleCommand, finish, openLater, appendChildren, appendChild,
    ThemeManager.setTheme, newPromptNode.
  repeat case_match; simplify_eq; simpl; try exact HI;
    repeat match goal with
    | H : getDirectoryContents fetch ?p ?s = (?o, ?s') |- _ =>
        let K := fresh "K" in
        assert (K : fileSystemCache s'
                    = fileSystemCache (snd (getDirectoryContents fetch p s)))
          by (rewrite H; reflexivity);
        clear H
    | H : getFileContent fetch atob ?p ?s = (?o, ?s') |- _ =>
        let K := fresh "K" in
        assert (K : fileSystemCache s'
                    = fileSystemCache (snd (getFileContent fetch atob p s)))
          by (rewrite H; reflexivity);
        clear H
    end;
    repeat first
      [ exact HI
      | apply cacheInvariant_getDirectoryContents
      | apply cacheInvariant_getFileContent
      | eapply cacheInvariant_same; [eassumption|]
      | match goal with
        | |- cacheInvariant _ _ ?s' =>
            let c := eval simpl in (fileSystemCache s') in
            match c with
            | fileSystemCache ?s =>
                progress (apply (cacheInvariant_same st0 s s' eq_refl))
            end
        end ].
Qed.

Lemma cacheInvariant_step st0 e st :
  cacheInvariant fetch st0 st -> cacheInvariant fetch st0 (step fetch atob e st).
Proof.
  apply (fs_step fetch atob (cacheInvariant fetch st0)).
  - intros s s' [_ Hc]. apply cacheInvariant_same, Hc.
  - intros l s. apply cacheInvariant_handleCommand.
  - intros p s. apply cacheInvariant_fetchDirectory.
Qed.

Lemma cacheInvariant_refl st : coherentCache fetch st -> cacheInvariant fetch st st.
Proof. intros H. split; [exact H|]. intros p d Hl. exact Hl. Qed.

Lemma coherent_startup saved : coherentCache fetch (startup saved).
Proof.
  destruct (startup_state saved) as (_ & _ & _ & Hc & _).
  intros p d Hl. rewrite Hc, lookup_empty in Hl. discriminate.
Qed.

Lemma coherent_run saved events :
  coherentCache fetch (run fetch atob events (startup saved)).
Proof.
  apply (run_invariant fetch atob (cacheInvariant fetch (startup saved)));
    [intros e st; apply cacheInvariant_step|].
  apply cacheInvariant_refl, coherent_startup.
Qed.

(** In every state the page reaches from its start, each entry of the
    cache is what the content provider answers for the path it is stored
    under, so that only successful answers are stored; and no event removes
    or changes an entry. *)
Theorem cache_is_faithful (saved : option string) (events : list Event) :
  let st := run fetch atob events (startup saved) in
  coherentCache fetch st /\ forall e, cacheKeeps st (step fetch atob e st).
Proof.
  cbv zeta. split; [apply coherent_run|].
  intros e. apply (cacheInvariant_step _ e), cacheInvariant_refl, coherent_run.
Qed.

End Cache.
(** ** Entering and leaving directories *)

Lemma childPath_split dir name :
  dir <> "" ->
  exists p, childPath dir name = p +:+ "/" +:+ name /\ JS.orElse p "/" = dir.
Proof.
  intros Hne. unfold childPath. destruct (String.eqb_spec dir "/") as [->|_].
  - exists "". split; reflexivity.
  - exists dir. split; [reflexivity|apply orElse_nonempty, Hne].
Qed.

Lemma cdParentPath_child p name :
  noSlash name = true -> cdParentPath (p +:+ "/" +:+ name) = JS.orElse p "/".
Proof.
  intros Hn. unfold cdParentPath. rewrite lastIndexOf_app by exact Hn.
  rewrite js_substring_prefix. reflexivity.
Qed.

Lemma cdDirName_child p name :
  noSlash name = true -> cdDirName (p +:+ "/" +:+ name) = name.
Proof.
  intros Hn. unfold cdDirName. rewrite lastIndexOf_app by exact Hn.
  rewrite <- string_app_assoc.
  replace (Z.of_nat (String.length p) + 1) with (Z.of_nat (String.length (p +:+ "/")))
    by (rewrite string_length_app; simpl; lia).
  apply js_substringFrom_suffix.
Qed.

Lemma cdNewPath_up p name :
  noSlash name = true -> cdNewPath (p +:+ "/" +:+ name) ".." = JS.orElse p "/".
Proof. intros Hn. apply (cdParentPath_child p name Hn). Qed.

Lemma startsWith_slash_noSlash name :
  noSlash name = true -> JS.startsWith name "/" = false.
Proof.
  unfold noSlash, JS.startsWith. destruct name as [|a r]; [reflexivity|].
  cbn [list_ascii_of_string forallb String.prefix]. intros [Ha _]%andb_prop.
  destruct (ascii_dec "/" a) as [<-|_]; [discriminate Ha|reflexivity].
Qed.

Lemma cdNewPath_child dir name :
  noSlash name = true -> name <> ".." -> cdNewPath dir name = childPath dir name.
Proof.
  intros Hn Hd. unfold cdNewPath, childPath.
  apply String.eqb_neq in Hd. rewrite Hd, startsWith_slash_noSlash by exact Hn.
  reflexivity.
Qed.

Lemma childPath_not_root dir name : dir <> "" -> name <> "" -> childPath dir name <> "/".
Proof.
  intros Hd Hn. unfold childPath. destruct (String.eqb dir "/").
  - destruct name; [congruence|discriminate].
  - destruct dir as [|a [|b r]]; [congruence| |];
      rewrite !string_app_cons; [|discriminate].
    destruct name; [congruence|discriminate].
Qed.

(** The words of a command line with one argument. *)
Lemma split_command_line cmd arg :
  token cmd = true -> token arg = true ->
  JS.split " " (JS.trim (cmd +:+ " " +:+ arg)) = [cmd; arg].
Proof.
  intros Hc Ha. unfold JS.trim.
  rewrite trimStart_startsNonWs by (apply startsNonWs_app, token_startsNonWs, Hc).
  rewrite <- string_app_assoc.
  rewrite trimEnd_app by (first [apply token_trimEnd, Ha|apply token_nonempty, Ha]).
  rewrite string_app_assoc, split_app by (apply token_lacks_space, Hc).
  rewrite split_lacks by (apply token_lacks_space, Ha). reflexivity.
Qed.

Section Directories.

Variable fetch : string -> option Json.
Variable atob : string -> option string.

Lemma cd_line name :
  token name = true ->
  commandOf ("cd " +:+ name) = CmdCd
  /\ cdTarget (tl (JS.split " " (JS.trim ("cd " +:+ name)))) = name.
Proof.
  intros Hn. unfold commandOf. change ("cd " +:+ name) with ("cd" +:+ " " +:+ name).
  rewrite split_command_line by (first [reflexivity|exact Hn]).
  split; [reflexivity|]. apply orElse_nonempty, token_nonempty, Hn.
Qed.

(** [cd] moves to the resolved path, which then is the root or a directory
    of the cached listing of its parent, or stays where it is. *)
Lemma cd_result line st :
  commandOf line = CmdCd ->
  let st' := snd (handleCommand fetch atob line st) in
  (currentDirectory st' = cdPath line st
   /\ (cdPath line st = "/"
       \/ exists items i,
            fileSystemCache st' !! cdParentPath (cdPath line st) = Some (JArray items)
            /\ In i items /\ item_name i = cdDirName (cdPath line st)
            /\ isDir i = true))
  \/ currentDirectory st' = currentDirectory st.
Proof.
  unfold commandOf, cdPath. intros Hcd. unfold handleCommand. rewrite Hcd.
  set (newPath := cdNewPath _ _).
  unfold getDirectoryContents, fetchDirectory.
  destruct (fileSystemCache st !! cdParentPath newPath) as [[items|t c]|] eqn:E;
    [| right; reflexivity |].
  - destruct (String.eqb_spec newPath "/") as [Hr|_]; cbn [orb].
    + left. split; [reflexivity|left; exact Hr].
    + destruct (existsb _ items) eqn:Ex; [|right; reflexivity].
      left. split; [reflexivity|right].
      apply existsb_exists in Ex as (i & Hi & [Hname Hdir]%andb_prop).
      exists items, i. repeat split; [exact E|exact Hi| |exact Hdir].
      apply String.eqb_eq, Hname.
  - destruct (fetch (cdParentPath newPath)) as [[items|t c]|] eqn:F;
      [| right; reflexivity |].
    + destruct (String.eqb_spec newPath "/") as [Hr|_]; cbn [orb].
      * left. split; [reflexivity|left; exact Hr].
      * destruct (existsb _ items) eqn:Ex; [|right; reflexivity].
        left. split; [reflexivity|right].
        apply existsb_exists in Ex as (i & Hi & [Hname Hdir]%andb_prop).
        exists items, i. repeat split; [apply lookup_insert_eq|exact Hi| |exact Hdir].
        apply String.eqb_eq, Hname.
    + destruct (String.eqb_spec newPath "/") as [Hr|_]; cbn [orb];
        [|right; reflexivity].
      left. split; [reflexivity|left; exact Hr].
Qed.

(** [cd] to the root, or to a directory of the cached listing of its parent,
    succeeds. *)
Lemma cd_accepts line st items :
  commandOf line = CmdCd ->
  fileSystemCache st !! cdParentPath (cdPath line st) = Some (JArray items) ->
  (cdPath line st = "/"
   \/ exists i, In i items /\ item_name i = cdDirName (cdPath line st)
                /\ isDir i = true) ->
  currentDirectory (snd (handleCommand fetch atob line st)) = cdPath line st.
Proof.
  unfold commandOf, cdPath. intros Hcd E Hok. unfold handleCommand. rewrite Hcd.
  set (newPath := cdNewPath _ _) in *.
  unfold getDirectoryContents. rewrite E.
  destruct Hok as [->|(i & Hi & Hname & Hdir)]; [reflexivity|].
  assert (Ex : existsb (fun i => String.eqb (item_name i) (cdDirName newPath) && isDir i)
                 items = true).
  { apply existsb_exists. exists i. split; [exact Hi|].
    rewrite Hdir, andb_true_r. apply String.eqb_eq, Hname. }
  rewrite Ex, orb_true_r. reflexivity.
Qed.

Lemma cdNewPath_nonempty dir target : cdNewPath dir target <> "".
Proof.
  unfold cdNewPath, JS.orElse. destruct (String.eqb target "..").
  - destruct (String.eqb_spec (JS.substring dir 0 (JS.lastIndexOf "/" dir)) "");
      [discriminate|assumption].
  - destruct (JS.startsWith target "/") eqn:S.
    + intros ->. discriminate S.
    + destruct (String.eqb dir "/"); [discriminate|].
      apply app_nonempty_r. discriminate.
Qed.

Lemma settled_handleCommand line st :
  settled fetch st -> settled fetch (snd (handleCommand fetch atob line st)).
Proof.
  intros (Hco & Hj & Hne).
  destruct (cacheInvariant_handleCommand fetch atob st line st
              (cacheInvariant_refl fetch st Hco)) as [Hco' Hk].
  split; [exact Hco'|].
  assert (Hstay :
            currentDirectory (snd (handleCommand fetch atob line st)) = currentDirectory st ->
            enteredThroughParent (snd (handleCommand fetch atob line st))
            /\ currentDirectory (snd (handleCommand fetch atob line st)) <> "").
  { intros Hc. split; [|rewrite Hc; exact Hne].
    unfold enteredThroughParent. rewrite Hc.
    destruct Hj as [Hr|(items & i & Hl & Hrest)]; [left; exact Hr|right].
    exists items, i. split; [apply Hk, Hl|exact Hrest]. }
  destruct (decide (commandOf line = CmdCd)) as [Hcd|Hother];
    [|apply Hstay, handleCommand_cwd_other, Hother].
  destruct (cd_result line st Hcd) as [[Hc Hin]|Hc]; [|apply Hstay, Hc].
  split; [|rewrite Hc; apply cdNewPath_nonempty].
  unfold enteredThroughParent. rewrite Hc. exact Hin.
Qed.

Lemma settled_step e st : settled fetch st -> settled fetch (step fetch atob e st).
Proof.
  apply (fs_step fetch atob (settled fetch)).
  - intros s s' [Hd Hc] (Hco & Hj & Hne). unfold settled, coherentCache, enteredThroughParent.
    rewrite Hd, Hc. repeat split; assumption.
  - intros l s. apply settled_handleCommand.
  - intros p s (Hco & Hj & Hne).
    destruct (cacheInvariant_fetchDirectory fetch s p s (cacheInvariant_refl fetch s Hco))
      as [Hco' Hk].
    assert (Hc : currentDirectory (snd (fetchDirectory fetch p s)) = currentDirectory s)
      by (unfold fetchDirectory; destruct (fetch p); reflexivity).
    split; [exact Hco'|]. split; [|rewrite Hc; exact Hne].
    unfold enteredThroughParent. rewrite Hc.
    destruct Hj as [Hr|(items & i & Hl & Hrest)]; [left; exact Hr|right].
    exists items, i. split; [apply Hk, Hl|exact Hrest].
Qed.

Lemma settled_run saved events : settled fetch (run fetch atob events (startup saved)).
Proof.
  apply run_invariant; [apply settled_step|].
  destruct (startup_state saved) as (_ & _ & _ & _ & Hd).
  split; [apply coherent_startup|]. split; [left; exact Hd|rewrite Hd; discriminate].
Qed.

Lemma getDirectoryContents_result path d st st' :
  getDirectoryContents fetch path st = (Some d, st') ->
  fileSystemCache st' !! path = Some d /\ currentDirectory st' = currentDirectory st.
Proof.
  unfold getDirectoryContents, fetchDirectory.
  destruct (fileSystemCache st !! path) as [d0|] eqn:E.
  - intros [= <- <-]. split; [exact E|reflexivity].
  - destruct (fetch path) as [d0|]; [|discriminate].
    intros [= <- <-]. split; [apply lookup_insert_eq|reflexivity].
Qed.

(** A directory name that Ctrl+U offers after [cd] can be entered: when the
    name is one word without a slash and is not [..], [cd] with that name
    moves into the directory. *)
Theorem completed_directory_can_be_entered
    (partial name : string) (l : list string) (st st1 : State) :
  currentDirectory st <> "" ->
  getDirectoryCompletions fetch partial st = (Normal l, st1) ->
  In name l -> token name = true -> noSlash name = true -> name <> ".." ->
  currentDirectory (snd (handleCommand fetch atob ("cd " +:+ name) st1))
  = childPath (currentDirectory st) name.
Proof.
  intros Hne Hget Hin Ht Hn Hd. unfold getDirectoryCompletions in Hget.
  destruct (getDirectoryContents fetch (currentDirectory st) st) as [contents st'] eqn:G.
  injection Hget as Hl <-.
  destruct contents as [[items|t c]|]; cbn [directoryCompletions] in Hl;
    [|discriminate Hl|injection Hl as <-; destruct Hin].
  injection Hl as <-.
  destruct (getDirectoryContents_result _ _ _ _ G) as [Hcache Hcwd].
  assert (Hi : exists i, In i items /\ item_name i = name /\ isDir i = true).
  { assert (Hin' : In name
                     (map item_name
                        (List.filter
                           (fun i => isDir i && JS.startsWith (item_name i) partial) items))).
    { destruct (_ && _) in Hin; [|exact Hin].
      destruct Hin as [E|Hin]; [congruence|exact Hin]. }
    apply in_map_iff in Hin' as (i & Hname & Hf).
    apply filter_In in Hf as [Hi [Hdir _]%andb_prop]. eauto. }
  destruct (cd_line name Ht) as [Hcd Htarget].
  assert (Hpath : cdPath ("cd " +:+ name) st' = childPath (currentDirectory st) name).
  { unfold cdPath. rewrite Htarget, Hcwd. apply cdNewPath_child; assumption. }
  destruct (childPath_split (currentDirectory st) name Hne) as (p & Hp & Hor).
  rewrite <- Hpath. apply (cd_accepts _ _ items Hcd).
  - rewrite Hpath, Hp, cdParentPath_child, Hor by exact Hn. exact Hcache.
  - right. rewrite Hpath, Hp, cdDirName_child by exact Hn. exact Hi.
Qed.

(** In every state the page reaches from its start, a [cd] into a
    sub-directory that changes the working directory is undone by
    [cd ..]. *)
Theorem cd_parent_returns (saved : option string) (events : list Event) (name : string) :
  let st := run fetch atob events (startup saved) in
  let st1 := snd (handleCommand fetch atob ("cd " +:+ name) st) in
  token name = true -> noSlash name = true -> name <> ".." ->
  currentDirectory st1 <> currentDirectory st ->
  currentDirectory (snd (handleCommand fetch atob "cd .." st1)) = currentDirectory st.
Proof.
  intros st st1 Ht Hn Hd Hmoved.
  destruct (settled_run saved events) as (Hco & Hj & Hne). fold st in Hco, Hj, Hne.
  destruct (cd_line name Ht) as [Hcd Htarget].
  assert (Hpath : cdPath ("cd " +:+ name) st = childPath (currentDirectory st) name).
  { unfold cdPath. rewrite Htarget. apply cdNewPath_child; assumption. }
  destruct (cd_result ("cd " +:+ name) st Hcd) as [[Hc Hin]|Hc]; [|contradiction].
  fold st1 in Hc, Hin. rewrite Hpath in Hc, Hin.
  destruct (childPath_split (currentDirectory st) name Hne) as (p & Hp & Hor).
  destruct Hin as [Hroot|(items & i & Hl & _)];
    [exfalso; revert Hroot; apply childPath_not_root;
       [exact Hne|apply token_nonempty, Ht]|].
  rewrite Hp, cdParentPath_child, Hor in Hl by exact Hn.
  assert (Hup : cdPath "cd .." st1 = currentDirectory st).
  { unfold cdPath. change (cdTarget (tl (JS.split " " (JS.trim "cd ..")))) with "..".
    rewrite Hc, Hp, cdNewPath_up by exact Hn. exact Hor. }
  rewrite <- Hup.
  destruct (decide (currentDirectory st = "/")) as [Hr|Hnr].
  - apply (cd_accepts "cd .." st1 items); [reflexivity| |left; rewrite Hup; exact Hr].
    rewrite Hup, Hr. rewrite Hr in Hl. exact Hl.
  - destruct Hj as [Hr|(items' & i' & Hl' & Hrest)]; [contradiction|].
    destruct (cacheInvariant_handleCommand fetch atob st ("cd " +:+ name) st
                (cacheInvariant_refl fetch st Hco)) as [_ Hk].
    apply (cd_accepts "cd .." st1 items'); [reflexivity| |right; rewrite Hup; eauto].
    rewrite Hup. apply Hk, Hl'.
Qed.

(** C5.  The path that the [cd] case resolves from the working directory
    and its target [args[0]] (empty when the line has no argument), and then
    validates and installs: an empty target yields the root; the target [..]
    strips the last segment of the working directory (and yields the root
    when nothing is left, so the root stays the root); a target that starts
    with [/] is the path as it is; any other target is appended to the
    working directory after exactly one [/], and after the root the path
    does not start with a doubled separator.  The working directory after
    the command is this path or the one before, and it is this path when the
    path is the root or a directory of the cached listing of its parent. *)
Theorem cd_path_resolution (line : string) (st : State) :
  commandOf line = CmdCd ->
  let args := tl (JS.split " " (JS.trim line)) in
  let target := hd "" args in
  let current := currentDirectory st in
  let path := cdNewPath current (cdTarget args) in
  let st' := snd (handleCommand fetch atob line st) in
  ((target = "" -> path = "/") /\
   (target = ".." ->
      (forall p seg, current = p +:+ "/" +:+ seg -> noSlash seg = true ->
         path = if String.eqb p "" then "/" else p) /\
      (noSlash current = true -> path = "/")) /\
   (JS.startsWith target "/" = true -> path = target) /\
   (target <> "" -> target <> ".." -> JS.startsWith target "/" = false ->
      path = (if String.eqb current "/" then "/" +:+ target
              else current +:+ "/" +:+ target)
      /\ (current = "/" -> JS.startsWith path "//" = false))) /\
  (currentDirectory st' = path \/ currentDirectory st' = current) /\
  (forall items,
     fileSystemCache st !! cdParentPath path = Some (JArray items) ->
     (path = "/"
      \/ exists i, In i items /\ item_name i = cdDirName path /\ isDir i = true) ->
     currentDirectory st' = path).
Proof.
  intros Hcd args target current path st'. split; [|split].
  - apply (cdNewPath_cases current target).
  - destruct (cd_result line st Hcd) as [[H _]|H]; [left|right]; exact H.
  - intros items Hl Hok. exact (cd_accepts line st items Hcd Hl Hok).
Qed.

End Directories.
(** ** The further properties at concrete inputs *)

(** An unknown command, typed with surrounding blanks. *)
Lemma unknown_command_reported_witness :
  handleCommand sampleRemote Base64.atob "  Foo bar " (startup None)
  = (Normal {| clear := false; outcome_currentDirectory := Some "/" |},
     appendChild (Line "Command not found: Foo bar") (startup None)).
Proof.
  exact (unknown_command_reported sampleRemote Base64.atob "  Foo bar " (startup None)
           eq_refl eq_refl).
Defined.

(** [echo] keeps the two spaces between its words. *)
Lemma echo_prints_argument_witness :
  handleCommand sampleRemote Base64.atob "echo a  b" (startup None)
  = (Normal {| clear := false; outcome_currentDirectory := Some "/" |},
     appendChild (Line "a  b") (startup None)).
Proof.
  exact (echo_prints_argument sampleRemote Base64.atob "a  b" (startup None) eq_refl).
Defined.

(** [README.md], once read, is read again without the provider. *)
Lemma file_content_cached_witness :
  let st1 := snd (getFileContent sampleRemote Base64.atob "/README.md" (startup None)) in
  getFileContent (fun _ => None) Base64.atob "/README.md" st1 = (Some "# hi", st1).
Proof.
  exact (file_content_cached sampleRemote Base64.atob "/README.md" (startup None)
           (snd (getFileContent sampleRemote Base64.atob "/README.md" (startup None)))
           "# hi" eq_refl (fun _ => None)).
Defined.

(** The second candidate for [themes cat]. *)
Lemma theme_completions_are_themes_witness :
  JS.startsWith "catppuccin-latte" "cat" = true
  /\ fst (ThemeManager.setTheme "catppuccin-latte" (startup None)) = true.
Proof.
  exact (theme_completions_are_themes "cat" "catppuccin-latte" (startup None)
           (or_intror (or_introl eq_refl))).
Defined.

(** Enter on three spaces. *)
Lemma blank_line_is_ignored_witness :
  submit sampleRemote Base64.atob "   " (startup None) = input "   " (startup None).
Proof.
  exact (blank_line_is_ignored sampleRemote Base64.atob "   " (startup None) eq_refl).
Defined.

(** Ctrl+L with the capital letter, after a command. *)
Lemma clear_screen_shortcut_witness :
  terminal (keydown sampleRemote Base64.atob true "L" (sampleSubmit "ls" (startup None)))
  = [Prompt 2 "~" ""].
Proof.
  exact (proj1 (clear_screen_shortcut sampleRemote Base64.atob "L"
                  (sampleSubmit "ls" (startup None)) eq_refl)).
Defined.

(** Ctrl+U on [themes cat] starts a session over the two Catppuccin themes. *)
Lemma completion_starts_witness :
  cycling ["themes"] ["catppuccin-mocha"; "catppuccin-latte"] 0
    (ctrlU sampleRemote Base64.atob (input "themes cat" (startup None))).
Proof.
  refine (completion_starts sampleRemote Base64.atob
            ["catppuccin-mocha"; "catppuccin-latte"]
            (input "themes cat" (startup None)) (input "themes cat" (startup None))
            eq_refl _ _ eq_refl eq_refl).
  - repeat split.
  - vm_compute. discriminate.
Defined.

(** Three more presses in that session select the second theme; two lead
    back to the first. *)
Lemma completion_cycle_wraps_witness :
  let st := ctrlU sampleRemote Base64.atob (input "themes cat" (startup None)) in
  cycling ["themes"] ["catppuccin-mocha"; "catppuccin-latte"] 1
    (Nat.iter 3 (ctrlU sampleRemote Base64.atob) st)
  /\ hiddenInput (Nat.iter 2 (ctrlU sampleRemote Base64.atob) st) = hiddenInput st.
Proof.
  refine (completion_cycle_wraps sampleRemote Base64.atob
            ["themes"] ["catppuccin-mocha"; "catppuccin-latte"] 0 3
            (ctrlU sampleRemote Base64.atob (input "themes cat" (startup None))) _ _ _).
  - split; [repeat constructor|right; reflexivity].
  - repeat constructor.
  - repeat split. simpl. lia.
Defined.

(** [js], offered for [cd j] in the root, can be entered. *)
Lemma completed_directory_can_be_entered_witness :
  currentDirectory
    (snd (handleCommand sampleRemote Base64.atob "cd js"
            (snd (getDirectoryCompletions sampleRemote "j" (startup None))))) = "/js".
Proof.
  refine (completed_directory_can_be_entered sampleRemote Base64.atob "j" "js" ["js"]
            (startup None) (snd (getDirectoryCompletions sampleRemote "j" (startup None)))
            _ eq_refl (or_introl eq_refl) eq_refl eq_refl _).
  - vm_compute. discriminate.
  - discriminate.
Defined.

(** [cd js] and [cd ..] after an [ls] in the root. *)
Lemma cd_parent_returns_witness :
  let st := sampleRun [Input "ls"; KeyDown false "Enter"] (startup None) in
  currentDirectory
    (snd (handleCommand sampleRemote Base64.atob "cd .."
            (snd (handleCommand sampleRemote Base64.atob "cd js" st)))) = currentDirectory st.
Proof.
  refine (cd_parent_returns sampleRemote Base64.atob None
            [Input "ls"; KeyDown false "Enter"] "js" eq_refl eq_refl _ _).
  - discriminate.
  - vm_compute. discriminate.
Defined.


(** C5 at concrete lines: [cd ..] below [/js/lib] resolves to [/js], and
    [cd js] in the root, once the root is listed, moves to [/js]. *)
Lemma cd_path_resolution_witness :
  cdNewPath "/js/lib" (cdTarget (tl (JS.split " " (JS.trim "cd ..")))) = "/js"
  /\ currentDirectory
       (snd (handleCommand sampleRemote Base64.atob "cd js"
               (sampleSubmit "ls" (startup None)))) = "/js".
Proof.
  split.
  - pose proof (cd_path_resolution sampleRemote Base64.atob "cd .."
                  (set_currentDirectory "/js/lib" (startup None)) eq_refl) as H.
    cbv zeta in H. destruct H as ((_ & H & _) & _).
    destruct (H eq_refl) as [H1 _].
    exact (H1 "/js" "lib" eq_refl eq_refl).
  - pose proof (cd_path_resolution sampleRemote Base64.atob "cd js"
                  (sampleSubmit "ls" (startup None)) eq_refl) as H.
    cbv zeta in H. destruct H as (_ & _ & H).
    apply (H sampleRoot); [vm_compute; reflexivity|].
    right. exists {| item_name := "js"; item_type := "dir" |}.
    split; [simpl; tauto|split; reflexivity].
Defined.
